(** * The event pipeline runner of the plugin server

    A shallow embedding of
    [plugin-server/src/worker/ingestion/event-pipeline/runner.ts] and of the
    payload contract exercised by
    [plugin-server/functional_tests/exports-v2.test.ts].

    The runner is asynchronous, effectful code: it calls external
    collaborators (statsd, Sentry, the Kafka producer, the step functions),
    throws and catches JavaScript errors and loops until a step returns
    [null].  It is embedded in a small monad [M] that threads a [World],
    returns a [Completion] (a value, a thrown error, or an exhausted loop
    budget) and writes the calls the runner itself makes to its collaborators
    to a trace of [Effect]s. *)

From Stdlib Require Import String List ZArith Lia Bool.
From stdpp Require Import base decidable option list gmap strings pretty.

Import ListNotations.
Local Open Scope string_scope.
Local Open Scope list_scope.

(** ** JavaScript values the runner handles *)

(** The classes of thrown values the runner tells apart:
    [err instanceof DependencyUnavailableError] in [handleError]; a
    [TypeError] is what calling a missing registry entry raises. *)
Inductive ErrorClass : Type :=
| DependencyUnavailableError
| TypeError
| GenericError.

Record JsError : Type := mkError {
  err_class : ErrorClass;
  message : string
}.

Definition isDependencyUnavailable (err : JsError) : bool :=
  match err_class err with
  | DependencyUnavailableError => true
  | _ => false
  end.

(** [PipelineEvent], [PluginEvent] and [ProcessedPluginEvent]: the fields
    the runner reads, and the remainder of the JSON payload kept opaque.
    [team_id] is optional on a [PipelineEvent]. *)
Record PluginEvent : Type := mkPluginEvent {
  uuid : string;
  team_id : option nat;
  distinct_id : string;
  event : string;
  payload : string
}.

(** [PostIngestionEvent], the argument of the async-handlers pipeline. *)
Record PostIngestionEvent : Type := mkPostIngestionEvent {
  eventUuid : string;
  teamId : nat;
  distinctId : string;
  eventName : string;
  eventPayload : string
}.

(** A [LazyPersonContainer] instance.  [pc_ref] is the identity of the
    object; [teamId] and [distinctId] are set by the constructor, the
    mutable [loaded] flag lives in the [Store]. *)
Record LazyPersonContainer : Type := mkLazyPersonContainer {
  pc_ref : nat;
  pc_teamId : option nat;
  pc_distinctId : string
}.

(** One element of a step's argument tuple ([any] in the source). *)
Inductive Arg : Type :=
| ArgEvent (e : PluginEvent)
| ArgPostIngestion (e : PostIngestionEvent)
| ArgPerson (c : LazyPersonContainer)
| ArgJson (j : string).

(** What [serialize] returns: the small projection of a person container,
    or the argument itself. *)
Inductive SerializedArg : Type :=
| SerProjection (teamId : option nat) (distinctId : string) (loaded : bool)
| SerSame (arg : Arg).

Definition StepType : Type := string.

(** [StepResult]: [null], or the pair built by [nextStep]. *)
Definition StepResult : Type := option (StepType * list Arg).

Record EventPipelineResult : Type := mkResult {
  lastStep : StepType;
  args : list SerializedArg;
  error : option string
}.

Inductive StatsD : Type := StatsDClient.

(** The part of the [Hub] the runner's control flow depends on:
    [hub.statsd] is optional (every use is [this.hub.statsd?.…]), while
    [hub.db.kafkaProducer!] is asserted present. *)
Record Hub : Type := mkHub {
  statsd : option StatsD
}.

(** The instance fields set by the constructor of [EventPipelineRunner]. *)
Record EventPipelineRunner : Type := mkRunner {
  hub : Hub;
  originalEvent : PluginEvent
}.

(** A promise that has settled. *)
Inductive Settled (A : Type) : Type :=
| Fulfilled (a : A)
| Rejected (e : JsError).
Arguments Fulfilled {A} a.
Arguments Rejected {A} e.

(** How a computation of the runner ends.  [OutOfFuel] is the loop budget
    of [runPipeline] running out: the [while (true)] has not returned yet. *)
Inductive Completion (A : Type) : Type :=
| Returns (a : A)
| Throws (e : JsError)
| OutOfFuel.
Arguments Returns {A} a.
Arguments Throws {A} e.
Arguments OutOfFuel {A}.

Definition settle {A : Type} (r : Settled A) : Completion A :=
  match r with
  | Fulfilled a => Returns a
  | Rejected e => Throws e
  end.

Definition STEPS_TO_EMIT_TO_DLQ_ON_FAILURE : list StepType :=
  [ "populateTeamDataStep";
    "emitToBufferStep";
    "pluginsProcessEventStep";
    "processPersonsStep";
    "prepareEventStep";
    "createEventStep" ].

(** [Array.prototype.includes] on an array of strings. *)
Definition includes (l : list string) (x : string) : bool :=
  existsb (String.eqb x) l.

(** Property names every object literal inherits from [Object.prototype].
    Indexing the registry with one of them does not yield [undefined]; the
    embedding of the registry covers its own properties only, and the
    statements about unregistered names leave these names out. *)
Definition objectPrototypeMembers : list string :=
  [ "constructor"; "hasOwnProperty"; "isPrototypeOf"; "propertyIsEnumerable";
    "toLocaleString"; "toString"; "valueOf"; "__proto__";
    "__defineGetter__"; "__defineSetter__";
    "__lookupGetter__"; "__lookupSetter__" ].

(** [String(x)] for an optional number and for a boolean. *)
Definition String_of_number (n : option nat) : string :=
  match n with
  | Some k => pretty k
  | None => "undefined"
  end.

Definition String_of_bool (b : bool) : string :=
  if b then "true" else "false".

(** The message of the timeout guard of [runStep]. *)
Definition guardText : string :=
  "Event pipeline step stalled. Timeout warning after 30 sec!".

(** What calling [undefined] throws. *)
Definition notAFunction : JsError :=
  mkError TypeError "EVENT_PIPELINE_STEPS[name] is not a function".

(** The [extra] context handed to [Sentry.captureException]. *)
Record SentryExtra : Type := mkExtra {
  extra_currentStepName : StepType;
  extra_serializedArgs : list SerializedArg;
  extra_originalEvent : PluginEvent;
  extra_err : option JsError
}.

(** ** The world, the effects and the monad *)

(** What the steps and the other collaborators can read and change: the
    state [Ext] of everything outside the runner (databases, the Kafka
    cluster, the plugin VMs) and the person containers allocated so far,
    with the set of those whose [loaded] flag is set. *)
Record Store (Ext : Type) : Type := mkStore {
  ext : Ext;
  personContainers : gset nat;
  loadedContainers : gset nat
}.
Arguments mkStore {Ext} ext personContainers loadedContainers.
Arguments ext {Ext} s.
Arguments personContainers {Ext} s.
Arguments loadedContainers {Ext} s.

(** The world the runner runs in: the store, and the timers of the Node.js
    process ([setTimeout] handles not yet cleared). *)
Record World (Ext : Type) : Type := mkWorld {
  store : Store Ext;
  timerSeq : nat;
  pendingTimers : list nat
}.
Arguments mkWorld {Ext} store timerSeq pendingTimers.
Arguments store {Ext} w.
Arguments timerSeq {Ext} w.
Arguments pendingTimers {Ext} w.

(** A call of the runner to one of its collaborators.  [ProducerRecord] is
    the type of the messages handed to the Kafka producer. *)
Inductive Effect (ProducerRecord : Type) : Type :=
| StatsdIncrement (name : string) (tags : list (string * string))
| StatsdTiming (name : string) (tags : list (string * string))
| StatusInfoError (err : JsError)
| StatusInfoText (text : string)
| SentryCaptureException (err : JsError) (extra : SentryExtra)
| SetTimeoutGuard (handle : nat) (text : string) (step : StepType) (event : string)
| ClearTimeout (handle : nat)
| StepInvoked (name : StepType) (args : list Arg)
| QueueMessage (record : ProducerRecord)
| NewLazyPersonContainer (c : LazyPersonContainer)
| PersonContainerGet (c : LazyPersonContainer).
Arguments StatsdIncrement {ProducerRecord} name tags.
Arguments StatsdTiming {ProducerRecord} name tags.
Arguments StatusInfoError {ProducerRecord} err.
Arguments StatusInfoText {ProducerRecord} text.
Arguments SentryCaptureException {ProducerRecord} err extra.
Arguments SetTimeoutGuard {ProducerRecord} handle text step event.
Arguments ClearTimeout {ProducerRecord} handle.
Arguments StepInvoked {ProducerRecord} name args.
Arguments QueueMessage {ProducerRecord} record.
Arguments NewLazyPersonContainer {ProducerRecord} c.
Arguments PersonContainerGet {ProducerRecord} c.

(** What a step function returns when called: a promise, which settles
    when awaited. *)
Definition Promise (Ext A : Type) : Type := Store Ext -> Settled A * Store Ext.

Definition StepFn (Ext : Type) : Type :=
  EventPipelineRunner -> list Arg -> Promise Ext StepResult.

(** A computation of the runner: from a world to a completion, the world
    it leaves and the calls it made, oldest first. *)
Definition M (Ext ProducerRecord A : Type) : Type :=
  World Ext -> Completion A * World Ext * list (Effect ProducerRecord).

Section Monad.

Context {Ext ProducerRecord : Type}.

Local Abbreviation M := (M Ext ProducerRecord).

Definition ret {A : Type} (a : A) : M A := fun w => (Returns a, w, []).

Definition bind {A B : Type} (m : M A) (k : A -> M B) : M B :=
  fun w =>
    match m w with
    | (Returns a, w1, t1) =>
        let '(c, w2, t2) := k a w1 in (c, w2, t1 ++ t2)
    | (Throws e, w1, t1) => (Throws e, w1, t1)
    | (OutOfFuel, w1, t1) => (OutOfFuel, w1, t1)
    end.

Definition throw {A : Type} (e : JsError) : M A := fun w => (Throws e, w, []).

Definition outOfFuel {A : Type} : M A := fun w => (OutOfFuel, w, []).

Definition emit (e : Effect ProducerRecord) : M unit :=
  fun w => (Returns tt, w, [e]).

(** [try { body } catch (error) { handler }] *)
Definition try_catch {A : Type} (body : M A) (handler : JsError -> M A) : M A :=
  fun w =>
    match body w with
    | (Throws e, w1, t1) =>
        let '(c, w2, t2) := handler e w1 in (c, w2, t1 ++ t2)
    | other => other
    end.

(** [try { body } finally { cleanup }]: the cleanup runs on a return and
    on a throw, and the completion of the body is kept unless the cleanup
    itself does not return. *)
Definition try_finally {A : Type} (body : M A) (cleanup : M unit) : M A :=
  fun w =>
    match body w with
    | (OutOfFuel, w1, t1) => (OutOfFuel, w1, t1)
    | (c, w1, t1) =>
        match cleanup w1 with
        | (Returns _, w2, t2) => (c, w2, t1 ++ t2)
        | (Throws e, w2, t2) => (Throws e, w2, t1 ++ t2)
        | (OutOfFuel, w2, t2) => (OutOfFuel, w2, t1 ++ t2)
        end
    end.

(** [await p] *)
Definition await {A : Type} (p : Promise Ext A) : M A :=
  fun w =>
    let '(r, s) := p (store w) in
    (settle r, mkWorld s (timerSeq w) (pendingTimers w), []).

Definition getStore : M (Store Ext) := fun w => (Returns (store w), w, []).

End Monad.

Declare Scope runner_scope.
Delimit Scope runner_scope with runner.
Notation "'let*' x ':=' m 'in' k" := (bind m (fun x => k))
  (at level 10, x name, m at level 100, k at level 200) : runner_scope.
Notation "m ';;;' k" := (bind m (fun _ => k))
  (at level 100, k at level 200, right associativity) : runner_scope.

(** The functions [runner.ts] imports from modules that are not part of
    the runner: the seven steps, the dead letter message builder, the Kafka
    producer, the person container and two JavaScript built-ins. *)
Class Collaborators (Ext ProducerRecord : Type) : Type := {
  (** [./1-populateTeamDataStep] to [./7-runAsyncHandlersStep] *)
  populateTeamDataStep : StepFn Ext;
  emitToBufferStep : StepFn Ext;
  pluginsProcessEventStep : StepFn Ext;
  processPersonsStep : StepFn Ext;
  prepareEventStep : StepFn Ext;
  createEventStep : StepFn Ext;
  runAsyncHandlersStep : StepFn Ext;
  (** [generateEventDeadLetterQueueMessage] from [../utils] *)
  generateEventDeadLetterQueueMessage : PluginEvent -> JsError -> ProducerRecord;
  (** [hub.db.kafkaProducer.queueMessage]: may reject *)
  queueMessage : ProducerRecord -> Promise Ext unit;
  (** [LazyPersonContainer.prototype.get]: the person or [undefined]; the
      runner only tests the result for truthiness *)
  LazyPersonContainer_get : LazyPersonContainer -> Promise Ext bool;
  (** [JSON.stringify] on an event *)
  JSON_stringify : PluginEvent -> string;
  (** [String(err)], as in a template literal *)
  String_of_error : JsError -> string
}.

(** ** The runner *)

Section Runner.

Context {Ext ProducerRecord : Type} `{!Collaborators Ext ProducerRecord}.

Local Abbreviation M := (M Ext ProducerRecord).
Local Open Scope runner_scope.

(** The step registry, in the order of the object literal. *)
Definition EVENT_PIPELINE_STEPS : list (StepType * StepFn Ext) :=
  [ ("populateTeamDataStep", populateTeamDataStep);
    ("emitToBufferStep", emitToBufferStep);
    ("pluginsProcessEventStep", pluginsProcessEventStep);
    ("processPersonsStep", processPersonsStep);
    ("prepareEventStep", prepareEventStep);
    ("createEventStep", createEventStep);
    ("runAsyncHandlersStep", runAsyncHandlersStep) ].

(** [EVENT_PIPELINE_STEPS[name]] for the own properties of the object
    literal, [None] standing for [undefined].  The members the literal
    inherits from [Object.prototype] are not looked up here: what is
    stated of a name that is not registered is stated of the names outside
    [objectPrototypeMembers]. *)
Fixpoint registry_get (steps : list (StepType * StepFn Ext)) (name : StepType)
  : option (StepFn Ext) :=
  match steps with
  | [] => None
  | (n, f) :: rest => if String.eqb n name then Some f else registry_get rest name
  end.

(** [this.hub.statsd?.increment(name, tags)] *)
Definition statsd_increment (h : Hub) (name : string) (tags : list (string * string)) : M unit :=
  match statsd h with
  | Some _ => emit (StatsdIncrement name tags)
  | None => ret tt
  end.

(** [this.hub.statsd?.timing(name, timer, tags)]; the value of the timer
    ([new Date()] at the top of the iteration) is left out. *)
Definition statsd_timing (h : Hub) (name : string) (tags : list (string * string)) : M unit :=
  match statsd h with
  | Some _ => emit (StatsdTiming name tags)
  | None => ret tt
  end.

(** Modelled from the spec: [timeoutGuard] of [utils/db/utils] is not
    among the sources.  The spec's Timeout Guard is
    [acquire(threshold, diagnosticContext) -> releaseHandle]: a pending
    timer that only logs when it fires.  Acquiring is a [setTimeout]: a
    new handle, pending until cleared. *)
Definition timeoutGuard (text : string) (step : StepType) (event : string) : M nat :=
  fun w =>
    let handle := timerSeq w in
    (Returns handle,
     mkWorld (store w) (S handle) (handle :: pendingTimers w),
     [SetTimeoutGuard handle text step event]).

(** [clearTimeout(handle)] *)
Fixpoint cancel (handle : nat) (pending : list nat) : list nat :=
  match pending with
  | [] => []
  | h :: rest => if Nat.eqb h handle then rest else h :: cancel handle rest
  end.

Definition clearTimeout (handle : nat) : M unit :=
  fun w =>
    (Returns tt,
     mkWorld (store w) (timerSeq w) (cancel handle (pendingTimers w)),
     [ClearTimeout handle]).

(** Modelled from the spec: [runInSpan] of [sentry.ts] is not among the
    sources, and the spec gives tracing no role in the runner's
    behaviour: the wrapper runs its callback and returns what it
    returns. *)
Definition runInSpan {A : Type} (op description : string) (callback : M A) : M A :=
  callback.

(** [serialize] *)
Definition serialize (s : Store Ext) (arg : Arg) : SerializedArg :=
  match arg with
  | ArgPerson c =>
      SerProjection (pc_teamId c) (pc_distinctId c)
                    (bool_decide (pc_ref c ∈ loadedContainers s))
  | _ => SerSame arg
  end.

(** [currentArgs.map((arg) => this.serialize(arg))] *)
Definition serializeArgs (currentArgs : list Arg) : M (list SerializedArg) :=
  let* s := getStore in ret (map (serialize s) currentArgs).

(** [runStep]: the callback given to [runInSpan] acquires the guard,
    calls the registry entry inside [try], and clears the guard in
    [finally].  The step is an async function: the call returns its
    promise, which [runPipeline] awaits.  Calling a missing entry throws
    a [TypeError] inside the [try]. *)
Definition runStep (this : EventPipelineRunner) (name : StepType) (args : list Arg)
  : M (Promise Ext StepResult) :=
  runInSpan "runStep" name
    (let* timeout :=
       timeoutGuard guardText name (JSON_stringify (originalEvent this)) in
     try_finally
       (match registry_get EVENT_PIPELINE_STEPS name with
        | Some step => emit (StepInvoked name args) ;;; ret (step this args)
        | None => throw notAFunction
        end)
       (clearTimeout timeout)).

(** [this.hub.db.kafkaProducer!.queueMessage(message)], awaited *)
Definition kafkaProducer_queueMessage (record : ProducerRecord) : M unit :=
  emit (QueueMessage record) ;;; await (queueMessage record).

(** [handleError] *)
Definition handleError (this : EventPipelineRunner) (err : JsError)
           (currentStepName : StepType) (currentArgs : list Arg) : M unit :=
  let* serializedArgs := serializeArgs currentArgs in
  emit (StatusInfoError err) ;;;
  emit (SentryCaptureException err
          (mkExtra currentStepName serializedArgs (originalEvent this) None)) ;;;
  statsd_increment (hub this) "kafka_queue.event_pipeline.step.error"
                   [("step", currentStepName)] ;;;
  if isDependencyUnavailable err then throw err
  else if includes STEPS_TO_EMIT_TO_DLQ_ON_FAILURE currentStepName then
    try_catch
      (let message := generateEventDeadLetterQueueMessage (originalEvent this) err in
       kafkaProducer_queueMessage message ;;;
       statsd_increment (hub this) "events_added_to_dead_letter_queue" [])
      (fun dlqError =>
         emit (StatusInfoText
                 ("Errored trying to add event to dead letter queue. Error: "
                  ++ String_of_error dlqError)) ;;;
         emit (SentryCaptureException dlqError
                 (mkExtra currentStepName serializedArgs (originalEvent this) (Some err))))
  else ret tt.

(** One turn of the [while (true)] of [runPipeline]: the [try] block and
    its [catch].  [inl] is the continuation adopted for the next turn,
    [inr] the result the method returns. *)
Definition runPipeline_turn (this : EventPipelineRunner)
           (currentStepName : StepType) (currentArgs : list Arg)
  : M (StepType * list Arg + EventPipelineResult) :=
  try_catch
    (let* stepResult :=
       (let* promise := runStep this currentStepName currentArgs in await promise) in
     statsd_increment (hub this) "kafka_queue.event_pipeline.step"
                      [("step", currentStepName)] ;;;
     statsd_timing (hub this) "kafka_queue.event_pipeline.step.timing"
                   [("step", currentStepName)] ;;;
     match stepResult with
     | Some next => ret (inl next)
     | None =>
         statsd_increment (hub this) "kafka_queue.event_pipeline.step.last"
                          [("step", currentStepName);
                           ("team_id", String_of_number (team_id (originalEvent this)))] ;;;
         let* serialized := serializeArgs currentArgs in
         ret (inr (mkResult currentStepName serialized None))
     end)
    (fun error =>
       handleError this error currentStepName currentArgs ;;;
       let* serialized := serializeArgs currentArgs in
       ret (inr (mkResult currentStepName serialized (Some (message error))))).

(** [runPipeline]: [fuel] bounds the number of turns of the loop. *)
Fixpoint runPipeline (this : EventPipelineRunner) (fuel : nat)
         (name : StepType) (args : list Arg) : M EventPipelineResult :=
  match fuel with
  | O => outOfFuel
  | S fuel' =>
      let* turn := runPipeline_turn this name args in
      match turn with
      | inl (currentStepName, currentArgs) =>
          runPipeline this fuel' currentStepName currentArgs
      | inr result => ret result
      end
  end.

(** [nextStep] *)
Definition nextStep (name : StepType) (args : list Arg) : StepResult :=
  Some (name, args).

(** Modelled from the spec: the class [LazyPersonContainer] is not among
    the sources.  The spec's Person Container is "constructed with
    (tenant id, actor id)", "created fresh per pipeline invocation" and
    not yet resolved: [new] allocates an object no existing container
    shares, with [loaded] false. *)
Definition new_LazyPersonContainer (teamId : option nat) (distinctId : string)
  : M LazyPersonContainer :=
  fun w =>
    let s := store w in
    let ref := fresh (personContainers s) in
    let c := mkLazyPersonContainer ref teamId distinctId in
    (Returns c,
     mkWorld (mkStore (ext s) ({[ref]} ∪ personContainers s)
                      (loadedContainers s ∖ {[ref]}))
             (timerSeq w) (pendingTimers w),
     [NewLazyPersonContainer c]).

(** [await personContainer.get()] *)
Definition personContainer_get (c : LazyPersonContainer) : M bool :=
  emit (PersonContainerGet c) ;;; await (LazyPersonContainer_get c).

(** [runLightweightCaptureEndpointEventPipeline] *)
Definition runLightweightCaptureEndpointEventPipeline
           (this : EventPipelineRunner) (fuel : nat) (event : PluginEvent)
  : M EventPipelineResult :=
  statsd_increment (hub this)
    "kafka_queue.lightweight_capture_endpoint_event_pipeline.start"
    [("pipeline", "lightweight_capture")] ;;;
  let* result := runPipeline this fuel "populateTeamDataStep" [ArgEvent event] in
  statsd_increment (hub this) "kafka_queue.single_event.processed_and_ingested" [] ;;;
  ret result.

(** [runEventPipeline] *)
Definition runEventPipeline
           (this : EventPipelineRunner) (fuel : nat) (event : PluginEvent)
  : M EventPipelineResult :=
  statsd_increment (hub this) "kafka_queue.event_pipeline.start"
                   [("pipeline", "event")] ;;;
  let* result := runPipeline this fuel "emitToBufferStep" [ArgEvent event] in
  statsd_increment (hub this) "kafka_queue.single_event.processed_and_ingested" [] ;;;
  ret result.

(** [runBufferEventPipeline] *)
Definition runBufferEventPipeline
           (this : EventPipelineRunner) (fuel : nat) (event : PluginEvent)
  : M EventPipelineResult :=
  statsd_increment (hub this) "kafka_queue.event_pipeline.start"
                   [("pipeline", "buffer")] ;;;
  let* personContainer := new_LazyPersonContainer (team_id event) (distinct_id event) in
  let* didPersonExistAtStart := personContainer_get personContainer in
  let* result :=
    runPipeline this fuel "pluginsProcessEventStep"
                [ArgEvent event; ArgPerson personContainer] in
  statsd_increment (hub this) "kafka_queue.buffer_event.processed_and_ingested"
                   [("didPersonExistAtStart", String_of_bool didPersonExistAtStart)] ;;;
  ret result.

(** [runAsyncHandlersEventPipeline] *)
Definition runAsyncHandlersEventPipeline
           (this : EventPipelineRunner) (fuel : nat) (event : PostIngestionEvent)
  : M EventPipelineResult :=
  statsd_increment (hub this) "kafka_queue.event_pipeline.start"
                   [("pipeline", "asyncHandlers")] ;;;
  let* personContainer :=
    new_LazyPersonContainer (Some (teamId event)) (distinctId event) in
  let* result :=
    runPipeline this fuel "runAsyncHandlersStep"
                [ArgPostIngestion event; ArgPerson personContainer] in
  statsd_increment (hub this) "kafka_queue.async_handlers.processed" [] ;;;
  ret result.

(** The four entry points, as one type of requests a caller can make. *)
Inductive Variant : Type :=
| LightweightCapture (event : PluginEvent)
| LiveEvent (event : PluginEvent)
| BufferedEvent (event : PluginEvent)
| AsyncHandlers (event : PostIngestionEvent).

Definition runVariant (this : EventPipelineRunner) (fuel : nat) (v : Variant)
  : M EventPipelineResult :=
  match v with
  | LightweightCapture event => runLightweightCaptureEndpointEventPipeline this fuel event
  | LiveEvent event => runEventPipeline this fuel event
  | BufferedEvent event => runBufferEventPipeline this fuel event
  | AsyncHandlers event => runAsyncHandlersEventPipeline this fuel event
  end.

(** The name of the counter each entry point increments after the loop. *)
Definition postRunCounter (v : Variant) : string :=
  match v with
  | LightweightCapture _ => "kafka_queue.single_event.processed_and_ingested"
  | LiveEvent _ => "kafka_queue.single_event.processed_and_ingested"
  | BufferedEvent _ => "kafka_queue.buffer_event.processed_and_ingested"
  | AsyncHandlers _ => "kafka_queue.async_handlers.processed"
  end.

(** The step each entry point hands to [runPipeline]. *)
Definition startingStep (v : Variant) : StepType :=
  match v with
  | LightweightCapture _ => "populateTeamDataStep"
  | LiveEvent _ => "emitToBufferStep"
  | BufferedEvent _ => "pluginsProcessEventStep"
  | AsyncHandlers _ => "runAsyncHandlersStep"
  end.

End Runner.

(** ** Reading a trace *)

Section Traces.

Context {ProducerRecord : Type}.

(** The records handed to [kafkaProducer.queueMessage], oldest first. *)
Definition dlqSubmissions (t : list (Effect ProducerRecord)) : list ProducerRecord :=
  flat_map (fun e => match e with QueueMessage record => [record] | _ => [] end) t.

(** The step functions called, with their arguments. *)
Definition stepsInvoked (t : list (Effect ProducerRecord)) : list (StepType * list Arg) :=
  flat_map (fun e => match e with StepInvoked name args => [(name, args)] | _ => [] end) t.

(** The tags of the increments of the counter [name]. *)
Definition increments (name : string) (t : list (Effect ProducerRecord))
  : list (list (string * string)) :=
  flat_map (fun e => match e with
                     | StatsdIncrement n tags => if String.eqb n name then [tags] else []
                     | _ => []
                     end) t.

(** Errors reported to Sentry. *)
Definition sentryReports (t : list (Effect ProducerRecord)) : list JsError :=
  flat_map (fun e => match e with SentryCaptureException err _ => [err] | _ => [] end) t.

(** Lines logged through [status.info] from a text. *)
Definition statusTexts (t : list (Effect ProducerRecord)) : list string :=
  flat_map (fun e => match e with StatusInfoText text => [text] | _ => [] end) t.

(** [guarded open t]: in the trace [t], which starts with the timeout
    guard [open] pending (or none), a guard is acquired only when none
    is pending, every step function is called while a guard is pending,
    the guard cleared is the pending one, and none is pending at the
    end. *)
Fixpoint guarded (open : option nat) (t : list (Effect ProducerRecord)) : bool :=
  match t with
  | [] => match open with None => true | Some _ => false end
  | SetTimeoutGuard handle _ _ _ :: rest =>
      match open with None => guarded (Some handle) rest | Some _ => false end
  | ClearTimeout handle :: rest =>
      match open with
      | Some pending => Nat.eqb handle pending && guarded None rest
      | None => false
      end
  | StepInvoked _ _ :: rest =>
      match open with Some _ => guarded open rest | None => false end
  | _ :: rest => guarded open rest
  end.

End Traces.

(** ** Chains of steps

    What one successful turn of the loop leaves behind, and the chains of
    steps in which every step returns a continuation. *)

Section Chains.

Context {Ext ProducerRecord : Type} `{!Collaborators Ext ProducerRecord}.

(** The calls [statsd?.increment] and [statsd?.timing] amount to. *)
Definition statsdIncrements (h : Hub) (name : string) (tags : list (string * string))
  : list (Effect ProducerRecord) :=
  match statsd h with
  | Some _ => [StatsdIncrement name tags]
  | None => []
  end.

Definition statsdTimings (h : Hub) (name : string) (tags : list (string * string))
  : list (Effect ProducerRecord) :=
  match statsd h with
  | Some _ => [StatsdTiming name tags]
  | None => []
  end.

(** The world once [runStep] has returned and its promise has settled
    leaving the store [s]: one more timer was created, none is left. *)
Definition afterStep (w : World Ext) (s : Store Ext) : World Ext :=
  mkWorld s (S (timerSeq w)) (pendingTimers w).

(** The calls of [runStep] for a registered step. *)
Definition guardedCall (this : EventPipelineRunner) (name : StepType)
           (args : list Arg) (w : World Ext) : list (Effect ProducerRecord) :=
  [ SetTimeoutGuard (timerSeq w) guardText name (JSON_stringify (originalEvent this));
    StepInvoked name args;
    ClearTimeout (timerSeq w) ].

(** The calls of [runStep] for a name the registry does not have. *)
Definition guardedMiss (this : EventPipelineRunner) (name : StepType)
           (w : World Ext) : list (Effect ProducerRecord) :=
  [ SetTimeoutGuard (timerSeq w) guardText name (JSON_stringify (originalEvent this));
    ClearTimeout (timerSeq w) ].

(** The calls of a turn whose step fulfilled. *)
Definition stepCompleted (this : EventPipelineRunner) (name : StepType)
           (args : list Arg) (w : World Ext) : list (Effect ProducerRecord) :=
  guardedCall this name args w
  ++ statsdIncrements (hub this) "kafka_queue.event_pipeline.step" [("step", name)]
  ++ statsdTimings (hub this) "kafka_queue.event_pipeline.step.timing" [("step", name)].

(** The calls of the last turn, after those of [stepCompleted]. *)
Definition stepIsFinal (this : EventPipelineRunner) (name : StepType)
  : list (Effect ProducerRecord) :=
  statsdIncrements (hub this) "kafka_queue.event_pipeline.step.last"
                   [("step", name);
                    ("team_id", String_of_number (team_id (originalEvent this)))].

(** The calls with which [handleError] starts, whatever the error. *)
Definition errorReported (this : EventPipelineRunner) (err : JsError)
           (name : StepType) (args : list Arg) (s : Store Ext)
  : list (Effect ProducerRecord) :=
  [ StatusInfoError err;
    SentryCaptureException err
      (mkExtra name (map (serialize s) args) (originalEvent this) None) ]
  ++ statsdIncrements (hub this) "kafka_queue.event_pipeline.step.error" [("step", name)].

(** The calls of the [catch] around the dead letter submission. *)
Definition dlqFailureReported (this : EventPipelineRunner) (err dlqError : JsError)
           (name : StepType) (args : list Arg) (s : Store Ext)
  : list (Effect ProducerRecord) :=
  [ StatusInfoText
      ("Errored trying to add event to dead letter queue. Error: "
       ++ String_of_error dlqError);
    SentryCaptureException dlqError
      (mkExtra name (map (serialize s) args) (originalEvent this) (Some err)) ].

(** [chain this n (name, args) w (name', args') w' t]: starting the loop
    at [name] with [args] in the world [w], the first [n] steps called
    are registered and each fulfils with a continuation; the loop is
    then about to call [name'] with [args'] in the world [w'], and has
    made the calls [t]. *)
Inductive chain (this : EventPipelineRunner)
  : nat -> StepType * list Arg -> World Ext ->
    StepType * list Arg -> World Ext -> list (Effect ProducerRecord) -> Prop :=
| chain_done current w :
    chain this 0 current w current w []
| chain_step n name args w step next s last w' t :
    registry_get EVENT_PIPELINE_STEPS name = Some step ->
    step this args (store w) = (Fulfilled (Some next), s) ->
    chain this n next (afterStep w s) last w' t ->
    chain this (S n) (name, args) w last w' (stepCompleted this name args w ++ t).

(** What the [catch] block makes of an error. *)
Definition caught (this : EventPipelineRunner) (err : JsError) (name : StepType)
           (args : list Arg) (w : World Ext) 
           (before : list (Effect ProducerRecord))
  : Completion (StepType * list Arg + EventPipelineResult)
    * World Ext * list (Effect ProducerRecord) :=
  match handleError this err name args w with
  | (Returns _, w', t) =>
      (Returns (inr (mkResult name (map (serialize (store w')) args) (Some (message err)))),
       w', before ++ t)
  | (Throws e, w', t) => (Throws e, w', before ++ t)
  | (OutOfFuel, w', t) => (OutOfFuel, w', before ++ t)
  end.

(** [runPipeline] returns what the turn that ends the loop returns. *)
Definition ending (completion : Completion (StepType * list Arg + EventPipelineResult))
  : Completion EventPipelineResult :=
  match completion with
  | Returns (inr result) => Returns result
  | Throws e => Throws e
  | _ => OutOfFuel
  end.

(** The calls of an entry point before it enters the loop, when the hub
    has a statsd client or not. *)
Definition pipelineStarted (this : EventPipelineRunner) (v : Variant)
  : list (Effect ProducerRecord) :=
  match v with
  | LightweightCapture _ =>
      statsdIncrements (hub this)
        "kafka_queue.lightweight_capture_endpoint_event_pipeline.start"
        [("pipeline", "lightweight_capture")]
  | LiveEvent _ =>
      statsdIncrements (hub this) "kafka_queue.event_pipeline.start" [("pipeline", "event")]
  | BufferedEvent _ =>
      statsdIncrements (hub this) "kafka_queue.event_pipeline.start" [("pipeline", "buffer")]
  | AsyncHandlers _ =>
      statsdIncrements (hub this) "kafka_queue.event_pipeline.start"
                       [("pipeline", "asyncHandlers")]
  end.

(** Around the loop: the calls [before] it, then those of the loop, then
    those [after] it when the loop returned a result. *)
Definition around {A : Type} (before after : list (Effect ProducerRecord))
           (loop : Completion A * World Ext * list (Effect ProducerRecord))
  : Completion A * World Ext * list (Effect ProducerRecord) :=
  match loop with
  | (Returns a, w, t) => (Returns a, w, before ++ t ++ after)
  | (c, w, t) => (c, w, before ++ t)
  end.

(** The world after [new LazyPersonContainer(...)]. *)
Definition afterNew (w : World Ext) : World Ext :=
  let s := store w in
  let ref := fresh (personContainers s) in
  mkWorld (mkStore (ext s) ({[ref]} ∪ personContainers s) (loadedContainers s ∖ {[ref]}))
          (timerSeq w) (pendingTimers w).

Definition withStore (w : World Ext) (s : Store Ext) : World Ext :=
  mkWorld s (timerSeq w) (pendingTimers w).

(** The container an entry point creates in the world [w]. *)
Definition newContainer (w : World Ext) (teamId : option nat) (distinctId : string)
  : LazyPersonContainer :=
  mkLazyPersonContainer (fresh (personContainers (store w))) teamId distinctId.

(** What an entry point has done when it comes to the loop: the seed
    arguments and the tags of its last counter, or the error of the
    person lookup of the buffer pipeline; the world; the calls made after
    the first counter. *)
Definition entry (this : EventPipelineRunner) (v : Variant) (w : World Ext)
  : Settled (list Arg * list (string * string))
    * World Ext * list (Effect ProducerRecord) :=
  match v with
  | LightweightCapture event => (Fulfilled ([ArgEvent event], []), w, [])
  | LiveEvent event => (Fulfilled ([ArgEvent event], []), w, [])
  | BufferedEvent event =>
      let c := newContainer w (team_id event) (distinct_id event) in
      let '(found, s) := LazyPersonContainer_get c (store (afterNew w)) in
      (match found with
       | Fulfilled didPersonExistAtStart =>
           Fulfilled ([ArgEvent event; ArgPerson c],
                      [("didPersonExistAtStart", String_of_bool didPersonExistAtStart)])
       | Rejected err => Rejected err
       end,
       withStore (afterNew w) s,
       [NewLazyPersonContainer c; PersonContainerGet c])
  | AsyncHandlers event =>
      let c := newContainer w (Some (teamId event)) (distinctId event) in
      (Fulfilled ([ArgPostIngestion event; ArgPerson c], []),
       afterNew w,
       [NewLazyPersonContainer c])
  end.

(** In the source a step returns a [StepResult]: [null] or a [NextStep],
    whose name is of the type [StepType], the keys of the object literal
    [EVENT_PIPELINE_STEPS].  A name is a string here: the steps given to
    the runner [this] continue with no name that the literal inherits
    from [Object.prototype]. *)
Definition continuesWithOwnNames (this : EventPipelineRunner) : Prop :=
  forall name step args s next s',
    registry_get EVENT_PIPELINE_STEPS name = Some step ->
    step this args s = (Fulfilled (Some next), s') ->
    includes objectPrototypeMembers (fst next) = false.

(** The store a turn goes on in once the call of [runStep] is over: the
    store the promise of the step left when it settled, or the store of
    the call when the registry has no such step. *)
Definition settledStore (this : EventPipelineRunner) (name : StepType)
           (args : list Arg) (s : Store Ext) : Store Ext :=
  match registry_get EVENT_PIPELINE_STEPS name with
  | Some step => snd (step this args s)
  | None => s
  end.

End Chains.

(** ** More readings of a trace *)

Section MoreTraces.

Context {ProducerRecord : Type}.

(** The tags of the timings sent under [name]. *)
Definition timings (name : string) (t : list (Effect ProducerRecord))
  : list (list (string * string)) :=
  flat_map (fun e => match e with
                     | StatsdTiming n tags => if String.eqb n name then [tags] else []
                     | _ => []
                     end) t.

(** The person containers created with [new]. *)
Definition containersCreated (t : list (Effect ProducerRecord)) : list LazyPersonContainer :=
  flat_map (fun e => match e with NewLazyPersonContainer c => [c] | _ => [] end) t.

(** The tags of the step counter and of the step timing for a step. *)
Definition stepTag (call : StepType * list Arg) : list (string * string) :=
  [("step", fst call)].

(** The contexts handed to Sentry. *)
Definition sentryContexts (t : list (Effect ProducerRecord)) : list SentryExtra :=
  flat_map (fun e => match e with SentryCaptureException _ extra => [extra] | _ => [] end) t.

(** Whether a serialized argument is a person container, left as it is. *)
Definition isContainer (a : SerializedArg) : bool :=
  match a with
  | SerSame (ArgPerson _) => true
  | _ => false
  end.

(** [out] shows the argument [arg] as the runner is to show it outside,
    in a store where the containers [loaded] are loaded: a person
    container by its own [teamId] and [distinctId] and its [loaded] flag,
    any other argument as it is. *)
Definition projects (loaded : gset nat) (arg : Arg) (out : SerializedArg) : Prop :=
  match arg, out with
  | ArgPerson c, SerProjection teamId distinctId isLoaded =>
      teamId = pc_teamId c
      /\ distinctId = pc_distinctId c
      /\ (isLoaded = true <-> pc_ref c ∈ loaded)
  | ArgPerson _, SerSame _ => False
  | _, SerSame same => same = arg
  | _, SerProjection _ _ _ => False
  end.

(** The counter an entry point increments first, and its tags. *)
Definition startCounter (v : Variant) : string :=
  match v with
  | LightweightCapture _ => "kafka_queue.lightweight_capture_endpoint_event_pipeline.start"
  | _ => "kafka_queue.event_pipeline.start"
  end.

Definition startTags (v : Variant) : list (string * string) :=
  match v with
  | LightweightCapture _ => [("pipeline", "lightweight_capture")]
  | LiveEvent _ => [("pipeline", "event")]
  | BufferedEvent _ => [("pipeline", "buffer")]
  | AsyncHandlers _ => [("pipeline", "asyncHandlers")]
  end.

End MoreTraces.

(** ** A concrete set of collaborators

    Small stand-ins for the steps and the Kafka producer, on which the
    runner can be evaluated.  The external state is one boolean: whether
    the Kafka cluster accepts messages.  A step fails on demand: the
    payload of the event it is given names the step that is to fail. *)

Module Sample.

(** A step called [self] that continues with [next], or ends the
    pipeline when there is none. *)
Definition faultOf (self : StepType) (text : string) : option JsError :=
  if String.eqb text ("unavailable in " ++ self)
  then Some (mkError DependencyUnavailableError "database is unreachable")
  else if String.eqb text ("bug in " ++ self)
  then Some (mkError GenericError "boom")
  else None.

Definition step (self : StepType) (next : option StepType) : StepFn bool :=
  fun this args s =>
    let text := match args with
                | ArgEvent e :: _ => payload e
                | ArgPostIngestion e :: _ => eventPayload e
                | _ => ""
                end in
    match faultOf self text with
    | Some err => (Rejected err, s)
    | None =>
        (Fulfilled (match next with
                    | Some name => Some (name, args)
                    | None => None
                    end), s)
    end.

#[export] Instance collaborators : Collaborators bool (string * string) := {|
  populateTeamDataStep := step "populateTeamDataStep" (Some "emitToBufferStep");
  emitToBufferStep := step "emitToBufferStep" (Some "pluginsProcessEventStep");
  pluginsProcessEventStep := step "pluginsProcessEventStep" (Some "processPersonsStep");
  processPersonsStep := step "processPersonsStep" (Some "prepareEventStep");
  prepareEventStep := step "prepareEventStep" (Some "createEventStep");
  createEventStep := step "createEventStep" None;
  runAsyncHandlersStep := step "runAsyncHandlersStep" None;
  generateEventDeadLetterQueueMessage := fun e err => (uuid e, message err);
  queueMessage := fun record s =>
    if ext s then (Fulfilled tt, s)
    else (Rejected (mkError GenericError "kafka is unreachable"), s);
  LazyPersonContainer_get := fun c s =>
    (Fulfilled (bool_decide (pc_ref c ∈ loadedContainers s)),
     mkStore (ext s) (personContainers s) ({[pc_ref c]} ∪ loadedContainers s));
  JSON_stringify := fun e => ("{uuid:" ++ uuid e ++ "}")%string;
  String_of_error := fun err => ("Error: " ++ message err)%string
|}.

(** The event as received, and as a plugin might have rewritten it. *)
Definition received : PluginEvent :=
  mkPluginEvent "017f-aa01" (Some 2) "user-1" "$pageview" "as received".

Definition anEvent (text : string) : PluginEvent :=
  mkPluginEvent "rewritten-uuid" (Some 2) "user-1" "$pageview renamed" text.

Definition aPostIngestionEvent (text : string) : PostIngestionEvent :=
  mkPostIngestionEvent "017f-aa01" 2 "user-1" "$pageview" text.

Definition withStatsd : Hub := mkHub (Some StatsDClient).
Definition withoutStatsd : Hub := mkHub None.

(** A runner constructed with the event as received. *)
Definition runner (h : Hub) : EventPipelineRunner := mkRunner h received.

Definition world (kafkaUp : bool) : World bool :=
  mkWorld (mkStore kafkaUp ∅ ∅) 0 [].

End Sample.

(** ** Historical export: the payload contract

    [functional_tests/exports-v2.test.ts] captures one event, lets the
    export plugin receive it live, then runs the historical export over a
    date range around the event twice, and compares the three payloads. The
    exporter itself is outside the sources; the payloads are modelled from
    the spec and from what the test expects of them. *)

Module HistoricalExport.

(** A JSON value of a payload.  Instants are kept as milliseconds since
    the epoch, where the wire carries their ISO string; arrays and nested
    objects are kept as their text. *)
Inductive Json : Type :=
| JNull
| JBool (b : bool)
| JNumber (n : Z)
| JString (s : string)
| JInstant (ms : Z)
| JText (json : string).

#[export] Instance Json_eq_dec : EqDecision Json.
Proof. solve_decision. Defined.

(** An event as the [exportEvents] function of a plugin receives it: its
    top-level attributes other than [properties], and its properties. *)
Record ExportedEvent : Type := mkExported {
  attributes : gmap string Json;
  properties : gmap string Json
}.

(** The arguments of [capture] in the test. *)
Record Capture : Type := mkCapture {
  c_teamId : Z;
  c_distinctId : string;
  c_uuid : string;
  c_event : string;
  c_properties : gmap string Json;
  c_elements : string;
  c_sentAt : Z;
  c_eventTime : Z;
  c_now : Z
}.

(** An event as stored after ingestion. *)
Record StoredEvent : Type := mkStored {
  s_teamId : Z;
  s_distinctId : string;
  s_uuid : string;
  s_event : string;
  s_timestamp : Z;
  s_properties : gmap string Json;
  s_elements : string
}.

(** Modelled from the spec: the timestamp computation of ingestion is
    not among the sources.  The stored timestamp "takes into account the
    time skew between [now] and [sent_at]": the client's event time,
    shifted by the difference of the server's and the client's clock. *)
Definition skewAdjustedTimestamp (c : Capture) : Z :=
  (c_now c + (c_eventTime c - c_sentAt c))%Z.

(** Modelled from the spec: ingestion is not among the sources.  The
    stored event keeps the identity of the captured one; the [uuid]
    property is overridden by the event's uuid, as the test notes. *)
Definition ingest (c : Capture) : StoredEvent :=
  mkStored (c_teamId c) (c_distinctId c) (c_uuid c) (c_event c)
           (skewAdjustedTimestamp c)
           (<["uuid" := JString (c_uuid c)]> (c_properties c))
           (c_elements c).

(** Modelled from the spec: the live export path is not among the
    sources.  The payload the plugin receives at ingestion, with the
    attributes the test expects, and a [null] [ip]. *)
Definition liveExport (e : StoredEvent) : ExportedEvent :=
  mkExported
    (list_to_map
       [ ("event", JString (s_event e));
         ("timestamp", JInstant (s_timestamp e));
         ("uuid", JString (s_uuid e));
         ("distinct_id", JString (s_distinctId e));
         ("team_id", JNumber (s_teamId e));
         ("elements", JText (s_elements e));
         ("ip", JNull) ])
    (s_properties e).

(** Modelled from the spec: the historical exporter is not among the
    sources.  The test expects of a replayed event the live payload with
    [ip] and [site_url] empty, [now] "set to the time the event was
    converted from the ClickHouse event", and three properties added: the
    flag, the export timestamp and the source tag.  [convertedAt] and
    [exportedAt] are the two clock readings of the replay. *)
Definition historicalExport (convertedAt exportedAt : Z) (e : StoredEvent)
  : ExportedEvent :=
  let live := liveExport e in
  mkExported
    (<["now" := JInstant convertedAt]>
       (<["site_url" := JString ""]>
          (<["ip" := JString ""]> (attributes live))))
    (<["$$historical_export_source_db" := JString "clickhouse"]>
       (<["$$historical_export_timestamp" := JInstant exportedAt]>
          (<["$$is_historical_export_event" := JBool true]> (properties live)))).

(** The payload of the job the test queues with
    [createHistoricalExportJob]. *)
Record ExportJob : Type := mkJob {
  pluginConfigTeam : Z;
  dateFrom : Z;
  dateTo : Z
}.

(** Modelled from the spec: a replay request "covering" the timestamp
    of a stored event of its team. *)
Definition covers (job : ExportJob) (e : StoredEvent) : bool :=
  (s_teamId e =? pluginConfigTeam job)%Z
  && (dateFrom job <=? s_timestamp e)%Z
  && (s_timestamp e <=? dateTo job)%Z.


(** The three properties a replay adds. *)
Definition historicalProperties : list string :=
  [ "$$is_historical_export_event";
    "$$historical_export_timestamp";
    "$$historical_export_source_db" ].

(** The event of the test: captured at 05:00, sent at 05:10 with an
    event time of 05:08 on 2022-01-01, in milliseconds since the start
    of that day. *)
Definition testCapture : Capture :=
  mkCapture 1 "distinct-1" "017f-bb02" "$autocapture"
            (list_to_map [("name", JString "hehe"); ("uuid", JString "017f-ffff")])
            "[{tag_name:div,nth_child:1,nth_of_type:2}]"
            18600000 18480000 18000000.

Definition testJob : ExportJob :=
  mkJob 1 (17880000 - 10000) (17880000 + 10000).


End HistoricalExport.

(** ** The harness of the functional tests

    The parts of [functional_tests/exports-v2.test.ts] around the
    payloads: the HTTP server that records what the export plugins post,
    the selection of the batch a test looks at, and the bounds of the
    second test on the gauge of the consumer. *)

Module FunctionalTest.

Import HistoricalExport.

(** A request body: the events a plugin posts in one call of
    [exportEvents]. *)
Definition Batch : Type := list ExportedEvent.

(** The [end] handler of the server: [webHookCalledWith[req.url] =
    webHookCalledWith[req.url] ?? []], then the parsed body is pushed.
    The urls are paths: they begin with a slash and are no member of
    [Object.prototype]. *)
Definition record (url : string) (body : Batch)
           (webHookCalledWith : gmap string (list Batch)) : gmap string (list Batch) :=
  <[url := default [] (webHookCalledWith !! url) ++ [body]]> webHookCalledWith.

(** The server after a sequence of requests, starting from
    [webHookCalledWith = {}]. *)
Definition serve (requests : list (string * Batch)) : gmap string (list Batch) :=
  fold_left (fun calledWith request => record (fst request) (snd request) calledWith)
            requests ∅.

(** Whether a value is truthy in a condition. *)
Definition truthy (j : Json) : bool :=
  match j with
  | JNull => false
  | JBool b => b
  | JNumber n => negb (n =? 0)%Z
  | JString s => negb (String.eqb s "")
  | JInstant _ => true
  | JText _ => true
  end.

(** [event.properties['$$is_historical_export_event']], as a condition. *)
Definition isHistorical (e : ExportedEvent) : bool :=
  match properties e !! "$$is_historical_export_event" with
  | Some j => truthy j
  | None => false
  end.

(** The callback of the first [waitForExpect]: the first batch posted to
    the url, which must hold one event.  [None] is a failed attempt, which
    [waitForExpect] repeats. *)
Definition firstExport (webHookCalledWith : gmap string (list Batch)) (url : string)
  : option Batch :=
  match webHookCalledWith !! url with
  | Some (exportEvents :: _) =>
      if Nat.eqb (length exportEvents) 1 then Some exportEvents else None
  | _ => None
  end.

(** The callback of the second [waitForExpect]: of the batches posted to
    the url, the first with some event marked as historical, which must
    hold one event; that event is returned. *)
Definition firstHistoricalExport (webHookCalledWith : gmap string (list Batch))
           (url : string) : option ExportedEvent :=
  match webHookCalledWith !! url with
  | Some batches =>
      match List.filter (existsb isHistorical) batches with
      | historicallyExportedEvents :: _ =>
          if Nat.eqb (length historicallyExportedEvents) 1
          then hd_error historicallyExportedEvents
          else None
      | [] => None
      end
  | None => None
  end.






(** The three expectations of the second test on the gauge
    [latest_processed_timestamp_ms], with the two readings of
    [Date.now()]. *)
Definition gaugeAccepted (metricBefore metricAfter now1 now2 : Z) : bool :=
  (metricBefore <? metricAfter)%Z
  && (metricAfter <? now1)%Z
  && (now2 - 60000 <? metricAfter)%Z.

End FunctionalTest.

(** * Properties of the runner *)

Section RunnerFacts.

Context {Ext ProducerRecord : Type} `{!Collaborators Ext ProducerRecord}.

Local Abbreviation M := (M Ext ProducerRecord).
Local Open Scope runner_scope.

Implicit Types (this : EventPipelineRunner) (w : World Ext) (s : Store Ext).
Implicit Types (name : StepType) (args : list Arg) (err : JsError).

(** *** The pieces of a turn *)

Lemma statsd_increment_run (h : Hub) (counter : string) tags w :
  statsd_increment h counter tags w
  = (Returns tt, w, statsdIncrements (ProducerRecord := ProducerRecord) h counter tags).
Proof. unfold statsd_increment, statsdIncrements. now destruct (statsd h). Qed.

Lemma statsd_timing_run (h : Hub) (counter : string) tags w :
  statsd_timing h counter tags w
  = (Returns tt, w, statsdTimings (ProducerRecord := ProducerRecord) h counter tags).
Proof. unfold statsd_timing, statsdTimings. now destruct (statsd h). Qed.

Lemma cancel_latest (handle : nat) (pending : list nat) :
  cancel handle (handle :: pending) = pending.
Proof. simpl. now rewrite Nat.eqb_refl. Qed.

Lemma runStep_registered this name args w step :
  registry_get EVENT_PIPELINE_STEPS name = Some step ->
  runStep this name args w
  = (Returns (step this args), afterStep w (store w), guardedCall this name args w).
Proof.
  intros Hreg. unfold runStep, runInSpan, bind, try_finally, timeoutGuard, clearTimeout.
  rewrite Hreg. cbn. now rewrite Nat.eqb_refl.
Qed.

Lemma runStep_unregistered this name args w :
  registry_get EVENT_PIPELINE_STEPS name = None ->
  runStep this name args w
  = (Throws notAFunction, afterStep w (store w), guardedMiss this name w).
Proof.
  intros Hreg. unfold runStep, runInSpan, bind, try_finally, timeoutGuard, clearTimeout.
  rewrite Hreg. cbn. now rewrite Nat.eqb_refl.
Qed.

(** *** [handleError], case by case *)

Ltac unfold_runner :=
  unfold handleError, runPipeline_turn, kafkaProducer_queueMessage, serializeArgs,
    errorReported, dlqFailureReported, stepCompleted, stepIsFinal,
    statsd_increment, statsd_timing, statsdIncrements, statsdTimings,
    try_catch, bind, getStore, ret, emit, throw, await, withStore.

Lemma handleError_rethrows this err name args w :
  isDependencyUnavailable err = true ->
  handleError this err name args w
  = (Throws err, w, errorReported this err name args (store w)).
Proof.
  intros Hdu. unfold_runner. rewrite Hdu. now destruct (statsd (hub this)).
Qed.

Lemma handleError_swallows this err name args w :
  isDependencyUnavailable err = false ->
  includes STEPS_TO_EMIT_TO_DLQ_ON_FAILURE name = false ->
  handleError this err name args w
  = (Returns tt, w, errorReported this err name args (store w)).
Proof.
  intros Hdu Hdlq. unfold_runner.
  rewrite Hdu, Hdlq. now destruct (statsd (hub this)).
Qed.

Lemma handleError_submits this err name args w s :
  isDependencyUnavailable err = false ->
  includes STEPS_TO_EMIT_TO_DLQ_ON_FAILURE name = true ->
  queueMessage (generateEventDeadLetterQueueMessage (originalEvent this) err) (store w)
  = (Fulfilled tt, s) ->
  handleError this err name args w
  = (Returns tt, withStore w s,
     errorReported this err name args (store w)
     ++ [QueueMessage (generateEventDeadLetterQueueMessage (originalEvent this) err)]
     ++ statsdIncrements (hub this) "events_added_to_dead_letter_queue" []).
Proof.
  intros Hdu Hdlq Hsent. unfold_runner.
  rewrite Hdu, Hdlq.
  destruct (statsd (hub this)); cbn; now rewrite Hsent.
Qed.

Lemma handleError_submission_fails this err name args w s dlqError :
  isDependencyUnavailable err = false ->
  includes STEPS_TO_EMIT_TO_DLQ_ON_FAILURE name = true ->
  queueMessage (generateEventDeadLetterQueueMessage (originalEvent this) err) (store w)
  = (Rejected dlqError, s) ->
  handleError this err name args w
  = (Returns tt, withStore w s,
     errorReported this err name args (store w)
     ++ [QueueMessage (generateEventDeadLetterQueueMessage (originalEvent this) err)]
     ++ dlqFailureReported this err dlqError name args (store w)).
Proof.
  intros Hdu Hdlq Hsent. unfold_runner.
  rewrite Hdu, Hdlq.
  destruct (statsd (hub this)); cbn; now rewrite Hsent.
Qed.

(** *** A turn of the loop, case by case *)

Lemma turn_continues this name args w step next s :
  registry_get EVENT_PIPELINE_STEPS name = Some step ->
  step this args (store w) = (Fulfilled (Some next), s) ->
  runPipeline_turn this name args w
  = (Returns (inl next), afterStep w s, stepCompleted this name args w).
Proof.
  intros Hreg Hstep. unfold runPipeline_turn, try_catch, bind.
  rewrite (runStep_registered _ _ _ _ _ Hreg). unfold await. cbn. rewrite Hstep.
  unfold_runner. destruct (statsd (hub this)); reflexivity.
Qed.

Lemma turn_returns this name args w step s :
  registry_get EVENT_PIPELINE_STEPS name = Some step ->
  step this args (store w) = (Fulfilled None, s) ->
  runPipeline_turn this name args w
  = (Returns (inr (mkResult name (map (serialize s) args) None)),
     afterStep w s,
     stepCompleted this name args w ++ stepIsFinal this name).
Proof.
  intros Hreg Hstep. unfold runPipeline_turn, try_catch, bind.
  rewrite (runStep_registered _ _ _ _ _ Hreg). unfold await. cbn. rewrite Hstep.
  unfold_runner. destruct (statsd (hub this)); reflexivity.
Qed.

Lemma try_catch_throws {A : Type} (body : M A) (handler : JsError -> M A)
      w e w1 (t1 : list (Effect ProducerRecord)) :
  body w = (Throws e, w1, t1) ->
  try_catch body handler w = let '(c, w2, t2) := handler e w1 in (c, w2, t1 ++ t2).
Proof. intros Hbody. unfold try_catch. now rewrite Hbody. Qed.

Lemma catch_block this err name args w1 (before : list (Effect ProducerRecord)) :
  (let '(c, w2, t2) :=
     (handleError this err name args ;;;
      let* serialized := serializeArgs args in
      ret (inr (mkResult name serialized (Some (message err))))) w1 in
   (c, w2, before ++ t2))
  = caught this err name args w1 before.
Proof.
  unfold caught, bind, serializeArgs, getStore, ret.
  destruct (handleError this err name args w1) as [[[u | e |] w'] t];
    cbn; rewrite ?app_nil_r; reflexivity.
Qed.

Lemma turn_catches_rejection this name args w step err s :
  registry_get EVENT_PIPELINE_STEPS name = Some step ->
  step this args (store w) = (Rejected err, s) ->
  runPipeline_turn this name args w
  = caught this err name args (afterStep w s) (guardedCall this name args w).
Proof.
  intros Hreg Hstep. unfold runPipeline_turn.
  rewrite (try_catch_throws _ _ w err (afterStep w s) (guardedCall this name args w)).
  - apply catch_block.
  - unfold bind. rewrite (runStep_registered _ _ _ _ _ Hreg).
    unfold await. cbn. rewrite Hstep. cbn. now rewrite ?app_nil_r.
Qed.

Lemma turn_catches_miss this name args w :
  registry_get EVENT_PIPELINE_STEPS name = None ->
  runPipeline_turn this name args w
  = caught this notAFunction name args (afterStep w (store w)) (guardedMiss this name w).
Proof.
  intros Hreg. unfold runPipeline_turn.
  rewrite (try_catch_throws _ _ w notAFunction (afterStep w (store w))
                            (guardedMiss this name w)).
  - apply catch_block.
  - unfold bind. now rewrite (runStep_unregistered _ _ _ _ Hreg).
Qed.

(** *** The loop *)

Lemma runPipeline_returns this fuel name args w result w1 t1 :
  runPipeline_turn this name args w = (Returns (inr result), w1, t1) ->
  runPipeline this (S fuel) name args w = (Returns result, w1, t1).
Proof.
  intros Hturn. cbn [runPipeline]. unfold bind. rewrite Hturn. cbn.
  now rewrite app_nil_r.
Qed.

Lemma runPipeline_throws this fuel name args w e w1 t1 :
  runPipeline_turn this name args w = (Throws e, w1, t1) ->
  runPipeline this (S fuel) name args w = (Throws e, w1, t1).
Proof. intros Hturn. cbn [runPipeline]. unfold bind. now rewrite Hturn. Qed.

Lemma runPipeline_continues this fuel name args w next w1 t1 :
  runPipeline_turn this name args w = (Returns (inl next), w1, t1) ->
  runPipeline this (S fuel) name args w
  = let '(c, w2, t2) := runPipeline this fuel (fst next) (snd next) w1 in
    (c, w2, t1 ++ t2).
Proof.
  intros Hturn. cbn [runPipeline]. unfold bind. rewrite Hturn. now destruct next.
Qed.

(** Along a chain the loop only moves on: with [n] turns more than it
    needs for the rest, it does what it does from the end of the chain. *)
Lemma runPipeline_chain this n start w last w' t :
  chain this n start w last w' t ->
  forall fuel,
    runPipeline this (n + fuel) (fst start) (snd start) w
    = let '(c, w2, t2) := runPipeline this fuel (fst last) (snd last) w' in
      (c, w2, t ++ t2).
Proof.
  induction 1 as [current w | n name args w step next s last w' t Hreg Hstep Hchain IH];
    intros fuel.
  - cbn. now destruct (runPipeline this fuel (fst current) (snd current) w) as [[c w2] t2].
  - cbn [Nat.add fst snd].
    rewrite (runPipeline_continues _ _ _ _ _ _ _ _ (turn_continues _ _ _ _ _ _ _ Hreg Hstep)).
    rewrite IH.
    destruct (runPipeline this fuel (fst last) (snd last) w') as [[c w2] t2].
    now rewrite app_assoc.
Qed.

Lemma runPipeline_along this n name args w lastName lastArgs w' t :
  chain this n (name, args) w (lastName, lastArgs) w' t ->
  forall fuel,
    runPipeline this (n + fuel) name args w
    = let '(c, w2, t2) := runPipeline this fuel lastName lastArgs w' in
      (c, w2, t ++ t2).
Proof. intros Hchain fuel. exact (runPipeline_chain _ _ _ _ _ _ _ Hchain fuel). Qed.

(** The loop is still running after every turn of a chain. *)
Lemma runPipeline_still_running this n start w last w' t :
  chain this n start w last w' t ->
  forall fuel, fuel <= n ->
    fst (fst (runPipeline this fuel (fst start) (snd start) w)) = OutOfFuel.
Proof.
  induction 1 as [current w | n name args w step next s last w' t Hreg Hstep Hchain IH];
    intros fuel Hfuel.
  - assert (fuel = 0) as -> by lia. reflexivity.
  - destruct fuel as [| fuel]; [reflexivity |].
    cbn [fst snd].
    rewrite (runPipeline_continues _ _ _ _ _ _ _ _ (turn_continues _ _ _ _ _ _ _ Hreg Hstep)).
    specialize (IH fuel ltac:(lia)).
    destruct (runPipeline this fuel (fst next) (snd next) (afterStep w s)) as [[c w2] t2].
    exact IH.
Qed.

(** *** Reading the traces of the runner *)

Lemma dlqSubmissions_app (t1 t2 : list (Effect ProducerRecord)) :
  dlqSubmissions (t1 ++ t2) = dlqSubmissions t1 ++ dlqSubmissions t2.
Proof. apply flat_map_app. Qed.

Lemma stepsInvoked_app (t1 t2 : list (Effect ProducerRecord)) :
  stepsInvoked (t1 ++ t2) = stepsInvoked t1 ++ stepsInvoked t2.
Proof. apply flat_map_app. Qed.

Lemma increments_app (counter : string) (t1 t2 : list (Effect ProducerRecord)) :
  increments counter (t1 ++ t2) = increments counter t1 ++ increments counter t2.
Proof. apply flat_map_app. Qed.

Lemma sentryReports_app (t1 t2 : list (Effect ProducerRecord)) :
  sentryReports (t1 ++ t2) = sentryReports t1 ++ sentryReports t2.
Proof. apply flat_map_app. Qed.

Lemma statusTexts_app (t1 t2 : list (Effect ProducerRecord)) :
  statusTexts (t1 ++ t2) = statusTexts t1 ++ statusTexts t2.
Proof. apply flat_map_app. Qed.

Lemma dlqSubmissions_statsd (h : Hub) (counter : string) tags :
  dlqSubmissions (statsdIncrements (ProducerRecord := ProducerRecord) h counter tags) = [].
Proof. unfold statsdIncrements. now destruct (statsd h). Qed.

Lemma dlqSubmissions_stepCompleted this name args w :
  dlqSubmissions (stepCompleted this name args w) = [].
Proof.
  unfold stepCompleted, statsdIncrements, statsdTimings.
  now destruct (statsd (hub this)).
Qed.

Lemma dlqSubmissions_errorReported this err name args s :
  dlqSubmissions (errorReported this err name args s) = @nil ProducerRecord.
Proof. unfold errorReported, statsdIncrements. now destruct (statsd (hub this)). Qed.

Lemma dlqSubmissions_chain this n start w last w' t :
  chain this n start w last w' t -> dlqSubmissions t = [].
Proof.
  induction 1 as [| n name args w step next s last w' t _ _ _ IH]; [reflexivity |].
  now rewrite dlqSubmissions_app, dlqSubmissions_stepCompleted, IH.
Qed.

Lemma stepsInvoked_stepCompleted this name args w :
  stepsInvoked (stepCompleted this name args w) = [(name, args)].
Proof.
  unfold stepCompleted, statsdIncrements, statsdTimings.
  now destruct (statsd (hub this)).
Qed.

(** A chain of [n] steps is [n] calls of step functions. *)
Lemma stepsInvoked_chain this n start w last w' t :
  chain this n start w last w' t -> length (stepsInvoked t) = n.
Proof.
  induction 1 as [| n name args w step next s last w' t _ _ _ IH]; [reflexivity |].
  rewrite stepsInvoked_app, stepsInvoked_stepCompleted. cbn. now rewrite IH.
Qed.

(** *** The registry and the dead-letterable steps *)

Ltac by_name :=
  repeat match goal with
    | |- context [String.eqb ?a ?b] =>
        destruct (String.eqb_spec a b);
        [ subst; try (intros; reflexivity); try congruence | ]
    end;
  try (intros; reflexivity); try (intros; discriminate); try congruence.

(** Of the registered steps, all but [runAsyncHandlersStep] are in
    [STEPS_TO_EMIT_TO_DLQ_ON_FAILURE]. *)
Lemma dead_letterable_registered name step :
  registry_get EVENT_PIPELINE_STEPS name = Some step ->
  name <> "runAsyncHandlersStep" ->
  includes STEPS_TO_EMIT_TO_DLQ_ON_FAILURE name = true.
Proof.
  unfold includes, EVENT_PIPELINE_STEPS, STEPS_TO_EMIT_TO_DLQ_ON_FAILURE.
  cbn [registry_get existsb]. intros Hreg Hname. revert Hreg. by_name.
Qed.

Lemma not_dead_letterable_unregistered name :
  registry_get EVENT_PIPELINE_STEPS name = None ->
  includes STEPS_TO_EMIT_TO_DLQ_ON_FAILURE name = false.
Proof.
  unfold includes, EVENT_PIPELINE_STEPS, STEPS_TO_EMIT_TO_DLQ_ON_FAILURE.
  cbn [registry_get existsb]. by_name.
Qed.

Lemma registered_runAsyncHandlersStep :
  registry_get EVENT_PIPELINE_STEPS "runAsyncHandlersStep" = Some runAsyncHandlersStep.
Proof. reflexivity. Qed.

(** *** What the [catch] block returns, case by case *)

Lemma caught_rethrows this err name args w (before : list (Effect ProducerRecord)) :
  isDependencyUnavailable err = true ->
  caught this err name args w before
  = (Throws err, w, before ++ errorReported this err name args (store w)).
Proof. intros Hdu. unfold caught. now rewrite handleError_rethrows. Qed.

Lemma caught_swallows this err name args w (before : list (Effect ProducerRecord)) :
  isDependencyUnavailable err = false ->
  includes STEPS_TO_EMIT_TO_DLQ_ON_FAILURE name = false ->
  caught this err name args w before
  = (Returns (inr (mkResult name (map (serialize (store w)) args) (Some (message err)))),
     w, before ++ errorReported this err name args (store w)).
Proof. intros Hdu Hdlq. unfold caught. now rewrite handleError_swallows. Qed.

Lemma caught_submits this err name args w s (before : list (Effect ProducerRecord)) :
  isDependencyUnavailable err = false ->
  includes STEPS_TO_EMIT_TO_DLQ_ON_FAILURE name = true ->
  queueMessage (generateEventDeadLetterQueueMessage (originalEvent this) err) (store w)
  = (Fulfilled tt, s) ->
  caught this err name args w before
  = (Returns (inr (mkResult name (map (serialize s) args) (Some (message err)))),
     withStore w s,
     before ++ errorReported this err name args (store w)
     ++ [QueueMessage (generateEventDeadLetterQueueMessage (originalEvent this) err)]
     ++ statsdIncrements (hub this) "events_added_to_dead_letter_queue" []).
Proof.
  intros Hdu Hdlq Hsent. unfold caught.
  now rewrite (handleError_submits _ _ _ _ _ _ Hdu Hdlq Hsent).
Qed.

Lemma caught_submission_fails this err name args w s dlqError
      (before : list (Effect ProducerRecord)) :
  isDependencyUnavailable err = false ->
  includes STEPS_TO_EMIT_TO_DLQ_ON_FAILURE name = true ->
  queueMessage (generateEventDeadLetterQueueMessage (originalEvent this) err) (store w)
  = (Rejected dlqError, s) ->
  caught this err name args w before
  = (Returns (inr (mkResult name (map (serialize s) args) (Some (message err)))),
     withStore w s,
     before ++ errorReported this err name args (store w)
     ++ [QueueMessage (generateEventDeadLetterQueueMessage (originalEvent this) err)]
     ++ dlqFailureReported this err dlqError name args (store w)).
Proof.
  intros Hdu Hdlq Hsent. unfold caught.
  now rewrite (handleError_submission_fails _ _ _ _ _ _ _ Hdu Hdlq Hsent).
Qed.

(** More fuel than the [n] turns of a chain is [n] turns and at least
    one more. *)
Lemma beyond_chain (n fuel : nat) : n < fuel -> exists k, fuel = n + S k.
Proof. intros Hlt. exists (fuel - S n). lia. Qed.

(** The [catch] block returns a result or throws: it never continues. *)
Lemma caught_ends this err name args w (before : list (Effect ProducerRecord))
      completion w2 t2 :
  caught this err name args w before = (completion, w2, t2) ->
  forall next, completion <> Returns (inl next).
Proof.
  unfold caught.
  destruct (handleError this err name args w) as [[[u | e |] w1] t1];
    intros [= <- _ _] next; discriminate.
Qed.

(** The loop after a chain, when the turn the chain leads to ends in the
    [catch] block. *)
Lemma runPipeline_caught this n name args w lastName lastArgs w' t err
      w1 before fuel completion w2 t2 :
  chain this n (name, args) w (lastName, lastArgs) w' t ->
  n < fuel ->
  runPipeline_turn this lastName lastArgs w' = caught this err lastName lastArgs w1 before ->
  caught this err lastName lastArgs w1 before = (completion, w2, t2) ->
  runPipeline this fuel name args w = (ending completion, w2, t ++ t2).
Proof.
  intros Hchain Hfuel Hturn Hcaught.
  destruct (beyond_chain _ _ Hfuel) as [k ->].
  rewrite (runPipeline_along _ _ _ _ _ _ _ _ _ Hchain (S k)).
  pose proof (caught_ends _ _ _ _ _ _ _ _ _ Hcaught) as Hends.
  rewrite Hcaught in Hturn.
  destruct completion as [[next | result] | e |]; cbn [ending].
  - now destruct (Hends next).
  - now rewrite (runPipeline_returns _ _ _ _ _ _ _ _ Hturn).
  - now rewrite (runPipeline_throws _ _ _ _ _ _ _ _ Hturn).
  - cbn [runPipeline]. unfold bind. now rewrite Hturn.
Qed.

Lemma runPipeline_rejection this n name args w lastName lastArgs w' t step err s
      fuel completion w2 t2 :
  chain this n (name, args) w (lastName, lastArgs) w' t ->
  registry_get EVENT_PIPELINE_STEPS lastName = Some step ->
  step this lastArgs (store w') = (Rejected err, s) ->
  n < fuel ->
  caught this err lastName lastArgs (afterStep w' s) (guardedCall this lastName lastArgs w')
  = (completion, w2, t2) ->
  runPipeline this fuel name args w = (ending completion, w2, t ++ t2).
Proof.
  intros Hchain Hreg Hstep Hfuel Hcaught.
  exact (runPipeline_caught _ _ _ _ _ _ _ _ _ _ _ _ _ _ _ _ Hchain Hfuel
           (turn_catches_rejection _ _ _ _ _ _ _ Hreg Hstep) Hcaught).
Qed.

Lemma runPipeline_miss this n name args w lastName lastArgs w' t
      fuel completion w2 t2 :
  chain this n (name, args) w (lastName, lastArgs) w' t ->
  registry_get EVENT_PIPELINE_STEPS lastName = None ->
  n < fuel ->
  caught this notAFunction lastName lastArgs (afterStep w' (store w'))
         (guardedMiss this lastName w')
  = (completion, w2, t2) ->
  runPipeline this fuel name args w = (ending completion, w2, t ++ t2).
Proof.
  intros Hchain Hreg Hfuel Hcaught.
  exact (runPipeline_caught _ _ _ _ _ _ _ _ _ _ _ _ _ _ _ _ Hchain Hfuel
           (turn_catches_miss _ _ _ _ Hreg) Hcaught).
Qed.

Lemma sentryReports_chain this n start w last w' t :
  chain this n start w last w' t -> sentryReports t = [].
Proof.
  induction 1 as [| n name args w step next s last w' t _ _ _ IH]; [reflexivity |].
  rewrite sentryReports_app, IH.
  unfold stepCompleted, statsdIncrements, statsdTimings.
  now destruct (statsd (hub this)).
Qed.

Lemma statusTexts_chain this n start w last w' t :
  chain this n start w last w' t -> statusTexts t = [].
Proof.
  induction 1 as [| n name args w step next s last w' t _ _ _ IH]; [reflexivity |].
  rewrite statusTexts_app, IH.
  unfold stepCompleted, statsdIncrements, statsdTimings.
  now destruct (statsd (hub this)).
Qed.


(** The loop throws the [DependencyUnavailableError] of a step. *)
Lemma dependency_unavailable_is_rethrown_loop
      this n name args w lastName lastArgs w' t step err s :
  chain this n (name, args) w (lastName, lastArgs) w' t ->
  registry_get EVENT_PIPELINE_STEPS lastName = Some step ->
  step this lastArgs (store w') = (Rejected err, s) ->
  isDependencyUnavailable err = true ->
  forall fuel, n < fuel ->
    exists trace, runPipeline this fuel name args w = (Throws err, afterStep w' s, trace).
Proof.
  intros Hchain Hreg Hstep Hdu fuel Hfuel. eexists.
  exact (runPipeline_rejection _ _ _ _ _ _ _ _ _ _ _ _ _ _ _ _
           Hchain Hreg Hstep Hfuel (caught_rethrows _ _ _ _ _ _ Hdu)).
Qed.

(** ** The claims about the loop *)

(** C1. Along a finite chain of steps in which every step called is
    registered and returns a continuation, up to a step that returns
    [null], [runPipeline] is still looping after each turn of the chain
    and returns at the turn of the step that returned [null]; the result
    has that step's name as [lastStep], that step's arguments, serialized,
    as [args], and no [error]. *)
Theorem runPipeline_returns_when_step_returns_null
        this n name args w lastName lastArgs w' t step s :
  chain this n (name, args) w (lastName, lastArgs) w' t ->
  registry_get EVENT_PIPELINE_STEPS lastName = Some step ->
  step this lastArgs (store w') = (Fulfilled None, s) ->
  (forall fuel, fuel <= n ->
     fst (fst (runPipeline this fuel name args w)) = OutOfFuel)
  /\ (forall fuel, n < fuel ->
        runPipeline this fuel name args w
        = (Returns (mkResult lastName (map (serialize s) lastArgs) None),
           afterStep w' s,
           t ++ stepCompleted this lastName lastArgs w' ++ stepIsFinal this lastName))
  /\ length (stepsInvoked t) = n.
Proof.
  intros Hchain Hreg Hstep. split; [| split].
  - exact (runPipeline_still_running _ _ _ _ _ _ _ Hchain).
  - intros fuel Hfuel. destruct (beyond_chain _ _ Hfuel) as [k ->].
    rewrite (runPipeline_along _ _ _ _ _ _ _ _ _ Hchain (S k)).
    now rewrite (runPipeline_returns _ _ _ _ _ _ _ _ (turn_returns _ _ _ _ _ _ Hreg Hstep)).
  - exact (stepsInvoked_chain _ _ _ _ _ _ _ Hchain).
Qed.

(** C2. When the step a chain leads to rejects with a
    [DependencyUnavailableError], whatever the step and wherever the loop
    was started, [runPipeline] throws that error instead of returning a
    result, and has handed nothing to the Kafka producer. *)
Theorem dependency_unavailable_is_rethrown
        this n name args w lastName lastArgs w' t step err s :
  chain this n (name, args) w (lastName, lastArgs) w' t ->
  registry_get EVENT_PIPELINE_STEPS lastName = Some step ->
  step this lastArgs (store w') = (Rejected err, s) ->
  isDependencyUnavailable err = true ->
  forall fuel, n < fuel ->
    exists trace,
      runPipeline this fuel name args w = (Throws err, afterStep w' s, trace)
      /\ dlqSubmissions trace = [].
Proof.
  intros Hchain Hreg Hstep Hdu fuel Hfuel.
  eexists. split.
  - exact (runPipeline_rejection _ _ _ _ _ _ _ _ _ _ _ _ _ _ _ _
             Hchain Hreg Hstep Hfuel (caught_rethrows _ _ _ _ _ _ Hdu)).
  - rewrite !dlqSubmissions_app, (dlqSubmissions_chain _ _ _ _ _ _ _ Hchain).
    now rewrite dlqSubmissions_errorReported.
Qed.

(** C3. When a step other than [runAsyncHandlersStep] rejects with an
    error that is not a [DependencyUnavailableError], [runPipeline] hands
    exactly one record to the Kafka producer, built from the
    [originalEvent] the runner was constructed with and the error,
    whatever the current arguments are, and returns a result with that
    step's name, its arguments, serialized, and the message of the
    error. *)
Theorem failed_step_is_dead_lettered_once
        this n name args w lastName lastArgs w' t step err s :
  chain this n (name, args) w (lastName, lastArgs) w' t ->
  registry_get EVENT_PIPELINE_STEPS lastName = Some step ->
  step this lastArgs (store w') = (Rejected err, s) ->
  isDependencyUnavailable err = false ->
  lastName <> "runAsyncHandlersStep" ->
  forall fuel, n < fuel ->
    exists s2 trace,
      runPipeline this fuel name args w
      = (Returns (mkResult lastName (map (serialize s2) lastArgs) (Some (message err))),
         withStore (afterStep w' s) s2, trace)
      /\ dlqSubmissions trace
         = [generateEventDeadLetterQueueMessage (originalEvent this) err].
Proof.
  intros Hchain Hreg Hstep Hdu Hname fuel Hfuel.
  pose proof (dead_letterable_registered _ _ Hreg Hname) as Hdlq.
  destruct (queueMessage (generateEventDeadLetterQueueMessage (originalEvent this) err) s)
    as [[[] | dlqError] s2] eqn:Hsent; exists s2; eexists; split.
  - exact (runPipeline_rejection _ _ _ _ _ _ _ _ _ _ _ _ _ _ _ _
             Hchain Hreg Hstep Hfuel
             (caught_submits _ _ _ _ (afterStep w' s) _ _ Hdu Hdlq Hsent)).
  - rewrite !dlqSubmissions_app, (dlqSubmissions_chain _ _ _ _ _ _ _ Hchain).
    now rewrite dlqSubmissions_errorReported, dlqSubmissions_statsd.
  - exact (runPipeline_rejection _ _ _ _ _ _ _ _ _ _ _ _ _ _ _ _
             Hchain Hreg Hstep Hfuel
             (caught_submission_fails _ _ _ _ (afterStep w' s) _ _ _ Hdu Hdlq Hsent)).
  - rewrite !dlqSubmissions_app, (dlqSubmissions_chain _ _ _ _ _ _ _ Hchain).
    now rewrite dlqSubmissions_errorReported.
Qed.

(** C4. When [runAsyncHandlersStep] rejects with an error that is not a
    [DependencyUnavailableError], [runPipeline] returns a result, with
    [lastStep] that step and [error] the message of the error, instead
    of throwing, and has handed nothing to the Kafka producer. *)
Theorem async_handlers_failure_is_not_dead_lettered
        this n name args w lastArgs w' t err s :
  chain this n (name, args) w ("runAsyncHandlersStep", lastArgs) w' t ->
  runAsyncHandlersStep this lastArgs (store w') = (Rejected err, s) ->
  isDependencyUnavailable err = false ->
  forall fuel, n < fuel ->
    exists trace,
      runPipeline this fuel name args w
      = (Returns (mkResult "runAsyncHandlersStep" (map (serialize s) lastArgs)
                           (Some (message err))),
         afterStep w' s, trace)
      /\ dlqSubmissions trace = [].
Proof.
  intros Hchain Hstep Hdu fuel Hfuel. eexists. split.
  - exact (runPipeline_rejection _ _ _ _ _ _ _ _ _ _ _ _ _ _ _ _
             Hchain registered_runAsyncHandlersStep Hstep Hfuel
             (caught_swallows this err "runAsyncHandlersStep" lastArgs
                              (afterStep w' s) _ Hdu eq_refl)).
  - rewrite !dlqSubmissions_app, (dlqSubmissions_chain _ _ _ _ _ _ _ Hchain).
    now rewrite dlqSubmissions_errorReported.
Qed.

(** C6, as amended.  When the loop comes to a name the registry does not
    have (and [Object.prototype] neither), no step function is called:
    the call of the missing entry throws a [TypeError] inside the [try]
    of [runPipeline], which is caught like the error of a step that is
    not dead-letterable: it is logged and reported, nothing is handed to
    the Kafka producer, and [runPipeline] returns a result with the
    unregistered name as [lastStep] and the message of the [TypeError]
    as [error]. *)
Theorem unregistered_step_is_returned_as_failure
        this n name args w lastName lastArgs w' t :
  chain this n (name, args) w (lastName, lastArgs) w' t ->
  registry_get EVENT_PIPELINE_STEPS lastName = None ->
  includes objectPrototypeMembers lastName = false ->
  forall fuel, n < fuel ->
    exists trace,
      runPipeline this fuel name args w
      = (Returns (mkResult lastName (map (serialize (store w')) lastArgs)
                           (Some "EVENT_PIPELINE_STEPS[name] is not a function")),
         afterStep w' (store w'), t ++ trace)
      /\ stepsInvoked trace = []
      /\ dlqSubmissions trace = []
      /\ sentryReports trace = [notAFunction].
Proof.
  intros Hchain Hreg _ fuel Hfuel. eexists. split; [| split; [| split]].
  - exact (runPipeline_miss _ _ _ _ _ _ _ _ _ _ _ _ _
             Hchain Hreg Hfuel
             (caught_swallows this notAFunction lastName lastArgs
                (afterStep w' (store w')) _ eq_refl
                (not_dead_letterable_unregistered _ Hreg))).
  - unfold guardedMiss, errorReported, statsdIncrements.
    now destruct (statsd (hub this)).
  - unfold guardedMiss, errorReported, statsdIncrements.
    now destruct (statsd (hub this)).
  - unfold guardedMiss, errorReported, statsdIncrements.
    now destruct (statsd (hub this)).
Qed.

(** C7. When the submission to the dead letter queue itself rejects,
    [handleError] logs and reports that second error and does not throw
    it: [runPipeline] still returns the result that carries the message
    of the error of the step. *)
Theorem dead_letter_failure_is_not_rethrown
        this n name args w lastName lastArgs w' t step err s dlqError s2 :
  chain this n (name, args) w (lastName, lastArgs) w' t ->
  registry_get EVENT_PIPELINE_STEPS lastName = Some step ->
  step this lastArgs (store w') = (Rejected err, s) ->
  isDependencyUnavailable err = false ->
  lastName <> "runAsyncHandlersStep" ->
  queueMessage (generateEventDeadLetterQueueMessage (originalEvent this) err) s
  = (Rejected dlqError, s2) ->
  forall fuel, n < fuel ->
    exists trace,
      runPipeline this fuel name args w
      = (Returns (mkResult lastName (map (serialize s2) lastArgs) (Some (message err))),
         withStore (afterStep w' s) s2, trace)
      /\ statusTexts trace
         = [("Errored trying to add event to dead letter queue. Error: "
             ++ String_of_error dlqError)%string]
      /\ sentryReports trace = [err; dlqError].
Proof.
  intros Hchain Hreg Hstep Hdu Hname Hsent fuel Hfuel.
  pose proof (dead_letterable_registered _ _ Hreg Hname) as Hdlq.
  eexists. split; [| split].
  - exact (runPipeline_rejection _ _ _ _ _ _ _ _ _ _ _ _ _ _ _ _
             Hchain Hreg Hstep Hfuel
             (caught_submission_fails _ _ _ _ (afterStep w' s) _ _ _ Hdu Hdlq Hsent)).
  - rewrite !statusTexts_app, (statusTexts_chain _ _ _ _ _ _ _ Hchain).
    unfold errorReported, statsdIncrements. now destruct (statsd (hub this)).
  - rewrite !sentryReports_app, (sentryReports_chain _ _ _ _ _ _ _ Hchain).
    unfold errorReported, statsdIncrements. now destruct (statsd (hub this)).
Qed.

(** ** The timeout guard *)

(** Every way a turn of the loop can go. *)
Ltac caught_cases this err name w1 :=
  let Hdu := fresh "Hdu" in
  let Hdlq := fresh "Hdlq" in
  let Hsent := fresh "Hsent" in
  let dlqError := fresh "dlqError" in
  let s2 := fresh "s2" in
  destruct (isDependencyUnavailable err) eqn:Hdu;
  [ rewrite (caught_rethrows _ _ _ _ _ _ Hdu)
  | destruct (includes STEPS_TO_EMIT_TO_DLQ_ON_FAILURE name) eqn:Hdlq;
    [ destruct (queueMessage
                  (generateEventDeadLetterQueueMessage (originalEvent this) err) (store w1))
        as [[[] | dlqError] s2] eqn:Hsent;
      [ rewrite (caught_submits _ _ _ _ _ _ _ Hdu Hdlq Hsent)
      | rewrite (caught_submission_fails _ _ _ _ _ _ _ _ Hdu Hdlq Hsent) ]
    | rewrite (caught_swallows _ _ _ _ _ _ Hdu Hdlq) ] ].

Ltac turn_cases this name args w :=
  let step := fresh "step" in
  let Hreg := fresh "Hreg" in
  let Hstep := fresh "Hstep" in
  let next := fresh "next" in
  let err := fresh "err" in
  let s := fresh "s" in
  destruct (registry_get EVENT_PIPELINE_STEPS name) as [step |] eqn:Hreg;
  [ destruct (step this args (store w)) as [[[next |] | err] s] eqn:Hstep;
    [ rewrite (turn_continues _ _ _ _ _ _ _ Hreg Hstep)
    | rewrite (turn_returns _ _ _ _ _ _ Hreg Hstep)
    | rewrite (turn_catches_rejection _ _ _ _ _ _ _ Hreg Hstep);
      caught_cases this err name (afterStep w s) ]
  | rewrite (turn_catches_miss _ _ _ _ Hreg);
    caught_cases this notAFunction name (afterStep w (store w)) ].

Ltac read_trace :=
  unfold stepCompleted, stepIsFinal, guardedCall, guardedMiss, errorReported,
    dlqFailureReported, statsdIncrements, statsdTimings;
  match goal with
  | this : EventPipelineRunner |- _ => destruct (statsd (hub this))
  end;
  cbn; rewrite ?Nat.eqb_refl; auto.

Lemma guarded_app (t1 t2 : list (Effect ProducerRecord)) :
  forall open, guarded open t1 = true -> guarded open (t1 ++ t2) = guarded None t2.
Proof.
  induction t1 as [| e t1 IH]; intros open Hopen.
  - destruct open; [discriminate | reflexivity].
  - destruct e, open; cbn in *; try discriminate; auto.
    apply andb_true_iff in Hopen as [-> Hrest]. cbn. auto.
Qed.

Lemma turn_guarded this name args w :
  guarded None (snd (runPipeline_turn this name args w)) = true
  /\ pendingTimers (snd (fst (runPipeline_turn this name args w))) = pendingTimers w.
Proof. turn_cases this name args w; split; try reflexivity; read_trace. Qed.

Lemma runPipeline_guarded this fuel :
  forall name args w,
    guarded None (snd (runPipeline this fuel name args w)) = true
    /\ pendingTimers (snd (fst (runPipeline this fuel name args w))) = pendingTimers w.
Proof.
  induction fuel as [| fuel IH]; intros name args w; [now split |].
  cbn [runPipeline]. unfold bind.
  destruct (turn_guarded this name args w) as [Hturn Hpending].
  destruct (runPipeline_turn this name args w) as [[[[[name' args'] | result] | e |] w1] t1];
    cbn [fst snd] in *; try (now split).
  - destruct (IH name' args' w1) as [Hrest Hpending'].
    destruct (runPipeline this fuel name' args' w1) as [[c w2] t2]; cbn [fst snd] in *.
    split; [| congruence]. now rewrite (guarded_app _ _ _ Hturn).
  - cbn. rewrite app_nil_r. now split.
Qed.

(** The guard is cleared when the call of the step has returned its
    promise, before the promise is awaited: the store is still the one
    the call was made in. *)
Lemma runStep_clears_before_settlement this name args w :
  store (snd (fst (runStep this name args w))) = store w.
Proof.
  destruct (registry_get EVENT_PIPELINE_STEPS name) as [step |] eqn:Hreg.
  - now rewrite (runStep_registered _ _ _ _ _ Hreg).
  - now rewrite (runStep_unregistered _ _ _ _ Hreg).
Qed.

(** What the guard of [runStep] spans: the call that returns the promise
    of the step, and no more.  [runStep] acquires the timeout guard, with
    the name of the step and the serialized original event as context,
    before it calls the step function, and clears that guard on both ways
    out of the call: when the call has returned the promise, and when
    calling a missing entry throws.  In every trace of the loop each call
    lies between the acquisition of a guard and the clearing of that same
    guard, and the loop leaves no timer pending that was not pending
    before.  The settlement of the promise is outside the guard, see
    [runStep_clears_before_settlement]. *)
Lemma step_calls_are_guarded_and_released this name args w :
  (exists completion body,
      runStep this name args w
      = (completion, afterStep w (store w),
         SetTimeoutGuard (timerSeq w) guardText name (JSON_stringify (originalEvent this))
         :: body ++ [ClearTimeout (timerSeq w)])
      /\ (forall step,
            registry_get EVENT_PIPELINE_STEPS name = Some step ->
            completion = Returns (step this args) /\ body = [StepInvoked name args])
      /\ (registry_get EVENT_PIPELINE_STEPS name = None ->
          includes objectPrototypeMembers name = false ->
          completion = Throws notAFunction /\ body = []))
  /\ pendingTimers (snd (fst (runStep this name args w))) = pendingTimers w
  /\ (forall fuel,
        guarded None (snd (runPipeline this fuel name args w)) = true
        /\ pendingTimers (snd (fst (runPipeline this fuel name args w))) = pendingTimers w).
Proof.
  split; [| split].
  - destruct (registry_get EVENT_PIPELINE_STEPS name) as [step |] eqn:Hreg.
    + exists (Returns (step this args)), [StepInvoked name args]. split; [| split].
      * exact (runStep_registered _ _ _ _ _ Hreg).
      * now intros step' [= <-].
      * discriminate.
    + exists (Throws notAFunction), []. split; [| split].
      * exact (runStep_unregistered _ _ _ _ Hreg).
      * discriminate.
      * now split.
  - destruct (registry_get EVENT_PIPELINE_STEPS name) as [step |] eqn:Hreg.
    + now rewrite (runStep_registered _ _ _ _ _ Hreg).
    + now rewrite (runStep_unregistered _ _ _ _ Hreg).
  - intros fuel. apply runPipeline_guarded.
Qed.

(** ** The entry points *)

Lemma around_bind {A : Type} (before : list (Effect ProducerRecord)) (h : Hub)
      (counter : string) tags (loop : M A) w :
  (let '(c, w2, t2) :=
     (let* result := loop in statsd_increment h counter tags ;;; ret result) w in
   (c, w2, before ++ t2))
  = around before (statsdIncrements h counter tags) (loop w).
Proof.
  unfold bind, around.
  destruct (loop w) as [[[result | e |] w2] t2]; try reflexivity.
  rewrite statsd_increment_run. cbn. now rewrite app_nil_r.
Qed.

Lemma around_prefix {A : Type} (prefix before after : list (Effect ProducerRecord))
      (loop : Completion A * World Ext * list (Effect ProducerRecord)) :
  (let '(c, w2, t2) := around before after loop in (c, w2, prefix ++ t2))
  = around (prefix ++ before) after loop.
Proof.
  unfold around. destruct loop as [[[result | e |] w2] t2]; now rewrite <- !app_assoc.
Qed.

Lemma personContainer_get_run (c : LazyPersonContainer) w :
  personContainer_get c w
  = let '(found, s) := LazyPersonContainer_get c (store w) in
    (settle found, withStore w s, [PersonContainerGet c]).
Proof.
  unfold personContainer_get, bind, emit, await, withStore.
  now destruct (LazyPersonContainer_get c (store w)) as [found s].
Qed.

Lemma runVariant_entry this fuel v w :
  runVariant this fuel v w
  = match entry this v w with
    | (Fulfilled (seeds, tags), w1, t0) =>
        around (pipelineStarted this v ++ t0)
               (statsdIncrements (hub this) (postRunCounter v) tags)
               (runPipeline this fuel (startingStep v) seeds w1)
    | (Rejected err, w1, t0) => (Throws err, w1, pipelineStarted this v ++ t0)
    end.
Proof.
  destruct v as [event | event | event | event]; cbn [runVariant entry pipelineStarted
                                                       postRunCounter startingStep].
  - unfold runLightweightCaptureEndpointEventPipeline. unfold bind at 1.
    rewrite statsd_increment_run. cbv beta iota. rewrite app_nil_r.
    apply around_bind.
  - unfold runEventPipeline. unfold bind at 1.
    rewrite statsd_increment_run. cbv beta iota. rewrite app_nil_r.
    apply around_bind.
  - unfold runBufferEventPipeline. unfold bind at 1.
    rewrite statsd_increment_run. cbv beta iota. unfold bind at 1.
    unfold new_LazyPersonContainer at 1. cbv beta iota zeta.
    fold (afterNew w). fold (newContainer w (team_id event) (distinct_id event)).
    unfold bind at 1. rewrite personContainer_get_run.
    destruct (LazyPersonContainer_get (newContainer w (team_id event) (distinct_id event))
                (store (afterNew w))) as [[found | err] s]; cbn [settle]; cbv beta iota.
    + rewrite around_bind, !around_prefix. reflexivity.
    + reflexivity.
  - unfold runAsyncHandlersEventPipeline. unfold bind at 1.
    rewrite statsd_increment_run. cbv beta iota. unfold bind at 1.
    unfold new_LazyPersonContainer at 1. cbv beta iota zeta.
    fold (afterNew w). fold (newContainer w (Some (teamId event)) (distinctId event)).
    rewrite around_bind, !around_prefix. reflexivity.
Qed.

(** C8. Each entry point runs the one loop, [runPipeline], from its own
    step with its own seed arguments, between its first counter and its
    last: the lightweight capture pipeline from [populateTeamDataStep]
    with the event; the event pipeline from [emitToBufferStep] with the
    event; the buffer pipeline, once the person lookup has fulfilled,
    from [pluginsProcessEventStep] with the event and a person container
    created for this call; the async-handlers pipeline from
    [runAsyncHandlersStep] with the post-ingestion event and such a new
    container.  The container created is none of the containers of the
    world the entry point was called in, and no later call, in a world
    that still has the containers of this one, creates it again.  (When
    the person lookup of the buffer pipeline rejects, the entry point
    throws that error and the loop is not entered.) *)
Theorem entry_points_seed_the_loop this fuel w :
  (forall event,
      runLightweightCaptureEndpointEventPipeline this fuel event w
      = around (statsdIncrements (hub this)
                  "kafka_queue.lightweight_capture_endpoint_event_pipeline.start"
                  [("pipeline", "lightweight_capture")])
               (statsdIncrements (hub this)
                  "kafka_queue.single_event.processed_and_ingested" [])
               (runPipeline this fuel "populateTeamDataStep" [ArgEvent event] w))
  /\ (forall event,
        runEventPipeline this fuel event w
        = around (statsdIncrements (hub this) "kafka_queue.event_pipeline.start"
                                   [("pipeline", "event")])
                 (statsdIncrements (hub this)
                    "kafka_queue.single_event.processed_and_ingested" [])
                 (runPipeline this fuel "emitToBufferStep" [ArgEvent event] w))
  /\ (forall event,
        let personContainer := newContainer w (team_id event) (distinct_id event) in
        (pc_ref personContainer ∉ personContainers (store w))
        /\ forall didPersonExistAtStart s,
            LazyPersonContainer_get personContainer (store (afterNew w))
            = (Fulfilled didPersonExistAtStart, s) ->
            runBufferEventPipeline this fuel event w
            = around (statsdIncrements (hub this) "kafka_queue.event_pipeline.start"
                                       [("pipeline", "buffer")]
                      ++ [NewLazyPersonContainer personContainer;
                          PersonContainerGet personContainer])
                     (statsdIncrements (hub this)
                        "kafka_queue.buffer_event.processed_and_ingested"
                        [("didPersonExistAtStart", String_of_bool didPersonExistAtStart)])
                     (runPipeline this fuel "pluginsProcessEventStep"
                                  [ArgEvent event; ArgPerson personContainer]
                                  (withStore (afterNew w) s)))
  /\ (forall event,
        let personContainer := newContainer w (Some (teamId event)) (distinctId event) in
        (pc_ref personContainer ∉ personContainers (store w))
        /\ runAsyncHandlersEventPipeline this fuel event w
           = around (statsdIncrements (hub this) "kafka_queue.event_pipeline.start"
                                      [("pipeline", "asyncHandlers")]
                     ++ [NewLazyPersonContainer personContainer])
                    (statsdIncrements (hub this) "kafka_queue.async_handlers.processed" [])
                    (runPipeline this fuel "runAsyncHandlersStep"
                                 [ArgPostIngestion event; ArgPerson personContainer]
                                 (afterNew w)))
  /\ (forall (w' : World Ext) teamId distinctId teamId' distinctId',
        personContainers (store (afterNew w)) ⊆ personContainers (store w') ->
        pc_ref (newContainer w' teamId' distinctId')
        <> pc_ref (newContainer w teamId distinctId))
  /\ (forall event err s,
        LazyPersonContainer_get (newContainer w (team_id event) (distinct_id event))
                                (store (afterNew w))
        = (Rejected err, s) ->
        runBufferEventPipeline this fuel event w
        = (Throws err, withStore (afterNew w) s,
           statsdIncrements (hub this) "kafka_queue.event_pipeline.start"
                            [("pipeline", "buffer")]
           ++ [NewLazyPersonContainer (newContainer w (team_id event) (distinct_id event));
               PersonContainerGet (newContainer w (team_id event) (distinct_id event))])).
Proof.
  split; [| split; [| split; [| split; [| split]]]].
  - intros e.
    pose proof (runVariant_entry this fuel (LightweightCapture e) w) as Hrun.
    cbn [runVariant entry pipelineStarted postRunCounter startingStep] in Hrun.
    now rewrite app_nil_r in Hrun.
  - intros e.
    pose proof (runVariant_entry this fuel (LiveEvent e) w) as Hrun.
    cbn [runVariant entry pipelineStarted postRunCounter startingStep] in Hrun.
    now rewrite app_nil_r in Hrun.
  - intros e personContainer. split; [apply is_fresh |].
    intros didPersonExistAtStart s Hget.
    pose proof (runVariant_entry this fuel (BufferedEvent e) w) as Hrun.
    cbn [runVariant entry pipelineStarted postRunCounter startingStep] in Hrun.
    fold personContainer in Hrun. now rewrite Hget in Hrun.
  - intros e personContainer. split; [apply is_fresh |].
    exact (runVariant_entry this fuel (AsyncHandlers e) w).
  - intros w' teamId distinctId teamId' distinctId' Hkept. cbn [newContainer pc_ref].
    pose proof (is_fresh (personContainers (store w'))) as Hfresh.
    intros Hsame. apply Hfresh, Hkept. rewrite Hsame.
    cbn [afterNew store personContainers]. set_solver.
  - intros e err s Hget.
    pose proof (runVariant_entry this fuel (BufferedEvent e) w) as Hrun.
    cbn [runVariant entry pipelineStarted postRunCounter startingStep] in Hrun.
    now rewrite Hget in Hrun.
Qed.

(** ** The counter after the loop *)

Lemma turn_never_counts v this name args w :
  increments (postRunCounter v) (snd (runPipeline_turn this name args w)) = [].
Proof.
  turn_cases this name args w; cbn [snd];
    unfold stepCompleted, stepIsFinal, guardedCall, guardedMiss, errorReported,
      dlqFailureReported, statsdIncrements, statsdTimings;
    destruct (statsd (hub this)), v; reflexivity.
Qed.

Lemma runPipeline_never_counts v this fuel :
  forall name args w,
    increments (postRunCounter v) (snd (runPipeline this fuel name args w)) = [].
Proof.
  induction fuel as [| fuel IH]; intros name args w; [reflexivity |].
  cbn [runPipeline]. unfold bind.
  pose proof (turn_never_counts v this name args w) as Hturn.
  destruct (runPipeline_turn this name args w) as [[[[[name' args'] | result] | e |] w1] t1];
    cbn [fst snd] in *; try assumption.
  - specialize (IH name' args' w1).
    destruct (runPipeline this fuel name' args' w1) as [[c w2] t2]; cbn [fst snd] in *.
    now rewrite increments_app, Hturn, IH.
  - cbn. now rewrite app_nil_r.
Qed.

Lemma increments_pipelineStarted this v v' :
  increments (postRunCounter v')
             (pipelineStarted (ProducerRecord := ProducerRecord) this v) = [].
Proof.
  unfold pipelineStarted, statsdIncrements.
  destruct (statsd (hub this)), v, v'; reflexivity.
Qed.

Lemma increments_entry this v v' w :
  increments (postRunCounter v') (snd (entry this v w)) = [].
Proof.
  destruct v; try reflexivity. cbn [entry].
  now destruct (LazyPersonContainer_get _ _) as [found s].
Qed.

Lemma increments_self (h : Hub) (counter : string) tags :
  increments counter (statsdIncrements (ProducerRecord := ProducerRecord) h counter tags)
  = match statsd h with Some _ => [tags] | None => [] end.
Proof.
  unfold statsdIncrements. destruct (statsd h); [| reflexivity].
  cbn. now rewrite String.eqb_refl.
Qed.

(** The increments of the last counter of an entry point, read off the
    completion of the loop. *)
Lemma increments_runVariant this fuel v w seeds tags w1 t0 :
  entry this v w = (Fulfilled (seeds, tags), w1, t0) ->
  increments (postRunCounter v) (snd (runVariant this fuel v w))
  = match fst (fst (runPipeline this fuel (startingStep v) seeds w1)), statsd (hub this) with
    | Returns _, Some _ => [tags]
    | _, _ => []
    end.
Proof.
  intros Hentry. rewrite runVariant_entry, Hentry.
  pose proof (runPipeline_never_counts v this fuel (startingStep v) seeds w1) as Hloop.
  pose proof (increments_entry this v v w) as Hpre. rewrite Hentry in Hpre. cbn [snd] in Hpre.
  destruct (runPipeline this fuel (startingStep v) seeds w1) as [[[result | e |] w2] t2];
    cbn [around fst snd] in *;
    rewrite !increments_app, ?increments_pipelineStarted, ?Hpre, ?Hloop, ?increments_self;
    now destruct (statsd (hub this)).
Qed.

(** C10, as amended.  For each entry point that has come to the loop:
    when a step rejects with a [DependencyUnavailableError] the entry
    point throws that error and its last counter is not incremented;
    on a hub with a statsd client the last counter is incremented if
    and only if the loop returns a result; on a hub without one it
    never is. *)
Theorem last_counter_follows_the_loop this fuel v w seeds tags w1 t0 :
  entry this v w = (Fulfilled (seeds, tags), w1, t0) ->
  (forall n lastName lastArgs w' t step err s,
      chain this n (startingStep v, seeds) w1 (lastName, lastArgs) w' t ->
      registry_get EVENT_PIPELINE_STEPS lastName = Some step ->
      step this lastArgs (store w') = (Rejected err, s) ->
      isDependencyUnavailable err = true ->
      n < fuel ->
      fst (fst (runVariant this fuel v w)) = Throws err
      /\ increments (postRunCounter v) (snd (runVariant this fuel v w)) = [])
  /\ (forall client,
        statsd (hub this) = Some client ->
        (increments (postRunCounter v) (snd (runVariant this fuel v w)) <> []
         <-> exists result,
             fst (fst (runPipeline this fuel (startingStep v) seeds w1)) = Returns result))
  /\ (statsd (hub this) = None ->
      increments (postRunCounter v) (snd (runVariant this fuel v w)) = []).
Proof.
  intros Hentry. pose proof (increments_runVariant this fuel v w _ _ _ _ Hentry) as Hcount.
  split; [| split].
  - intros n lastName lastArgs w' t step err s Hchain Hreg Hstep Hdu Hfuel.
    destruct (dependency_unavailable_is_rethrown_loop _ _ _ _ _ _ _ _ _ _ _ _
                Hchain Hreg Hstep Hdu fuel Hfuel) as [trace Hloop].
    rewrite Hcount, Hloop. split; [| reflexivity].
    rewrite runVariant_entry, Hentry, Hloop. reflexivity.
  - intros client Hclient. rewrite Hcount, Hclient.
    destruct (fst (fst (runPipeline this fuel (startingStep v) seeds w1)))
      as [result | e |]; split.
    + intros _. now exists result.
    + intros _. discriminate.
    + intros Hne. now destruct Hne.
    + intros [result Hresult]. discriminate.
    + intros Hne. now destruct Hne.
    + intros [result Hresult]. discriminate.
  - intros Hnone. rewrite Hcount, Hnone.
    now destruct (fst (fst (runPipeline this fuel (startingStep v) seeds w1))).
Qed.

(** ** How a run ends

    The converse of the claims about the loop: what a completion of
    [runPipeline] tells about the steps. *)

Lemma turn_continues_inv this name args w next w1 t1 :
  runPipeline_turn this name args w = (Returns (inl next), w1, t1) ->
  exists step s,
    registry_get EVENT_PIPELINE_STEPS name = Some step
    /\ step this args (store w) = (Fulfilled (Some next), s)
    /\ w1 = afterStep w s
    /\ t1 = stepCompleted this name args w.
Proof.
  turn_cases this name args w; intros Hturn; inversion Hturn; subst; eauto 10.
Qed.

(** A run that has ended went along a chain and ended in the turn the
    chain leads to. *)
Lemma runPipeline_inversion this fuel :
  forall name args w completion w' t,
    runPipeline this fuel name args w = (completion, w', t) ->
    completion <> OutOfFuel ->
    exists n lastName lastArgs w1 t1 turn t2,
      chain this n (name, args) w (lastName, lastArgs) w1 t1
      /\ n < fuel
      /\ runPipeline_turn this lastName lastArgs w1 = (turn, w', t2)
      /\ ending turn = completion
      /\ t = t1 ++ t2.
Proof.
  induction fuel as [| fuel IH]; intros name args w completion w' t Hrun Hended.
  - cbn in Hrun. inversion Hrun; subst. now destruct Hended.
  - cbn [runPipeline] in Hrun. unfold bind in Hrun.
    destruct (runPipeline_turn this name args w)
      as [[[[[name' args'] | result] | e |] w1] t1] eqn:Hturn.
    + destruct (turn_continues_inv _ _ _ _ _ _ _ Hturn) as (step & s & Hreg & Hstep & -> & ->).
      destruct (runPipeline this fuel name' args' (afterStep w s)) as [[c w2] t2] eqn:Hrest.
      inversion Hrun; subst.
      destruct (IH _ _ _ _ _ _ Hrest Hended)
        as (n & lastName & lastArgs & w1 & t1 & turn & t3 & Hchain & Hn & Hlast & Hend & ->).
      exists (S n), lastName, lastArgs, w1, (stepCompleted this name args w ++ t1), turn, t3.
      repeat split; try assumption.
      * exact (chain_step _ _ _ _ _ _ _ _ _ _ _ Hreg Hstep Hchain).
      * lia.
      * now rewrite app_assoc.
    + cbn in Hrun. rewrite app_nil_r in Hrun. inversion Hrun; subst.
      exists 0, name, args, w, [], (Returns (inr result)), t.
      repeat split; try assumption; try reflexivity; try lia. apply chain_done.
    + inversion Hrun; subst.
      exists 0, name, args, w, [], (Throws e), t.
      repeat split; try assumption; try reflexivity; try lia. apply chain_done.
    + inversion Hrun; subst. now destruct Hended.
Qed.

Lemma increments_chain_other (counter : string) this n start w last w' t :
  counter <> "kafka_queue.event_pipeline.step" ->
  chain this n start w last w' t -> increments counter t = [].
Proof.
  intros Hcounter.
  induction 1 as [| n name args w step next s last w' t _ _ _ IH]; [reflexivity |].
  rewrite increments_app, IH.
  unfold stepCompleted, guardedCall, statsdIncrements, statsdTimings.
  destruct (statsd (hub this)); [| reflexivity].
  unfold increments. cbn [flat_map app].
  destruct (String.eqb_spec "kafka_queue.event_pipeline.step" counter); [congruence | reflexivity].
Qed.


(** What [runPipeline] throws is a [DependencyUnavailableError]. *)
Lemma runPipeline_thrown this fuel name args w e w' t :
  runPipeline this fuel name args w = (Throws e, w', t) ->
  isDependencyUnavailable e = true.
Proof.
  intros Hrun.
  destruct (runPipeline_inversion this fuel name args w (Throws e) w' t Hrun ltac:(easy))
    as (n & lastName & lastArgs & w1 & t1 & turn & t2 & Hchain & Hn & Hturn & Hend & ->).
  revert Hturn. turn_cases this lastName lastArgs w1; intros Hturn;
    inversion Hturn; subst; cbn [ending] in Hend; try discriminate;
    inversion Hend; subst; assumption.
Qed.

(** X1. Started at a name that is no member of [Object.prototype], with
    steps that continue with no such name and that reject with [Error]
    objects, [runPipeline] throws nothing but a
    [DependencyUnavailableError]: when it throws, the error is of that
    class, it is the one error reported to Sentry, the error counter of
    the step was incremented once if the hub has a statsd client, and
    nothing was handed to the Kafka producer. *)
Theorem runPipeline_throws_only_dependency_unavailable
        this fuel name args w e w' t :
  includes objectPrototypeMembers name = false ->
  continuesWithOwnNames this ->
  runPipeline this fuel name args w = (Throws e, w', t) ->
  isDependencyUnavailable e = true
  /\ sentryReports t = [e]
  /\ dlqSubmissions t = []
  /\ length (increments "kafka_queue.event_pipeline.step.error" t)
     = match statsd (hub this) with Some _ => 1 | None => 0 end.
Proof.
  intros _ _ Hrun.
  destruct (runPipeline_inversion this fuel name args w (Throws e) w' t Hrun ltac:(easy))
    as (n & lastName & lastArgs & w1 & t1 & turn & t2 & Hchain & Hn & Hturn & Hend & ->).
  rewrite sentryReports_app, dlqSubmissions_app, increments_app.
  rewrite (sentryReports_chain _ _ _ _ _ _ _ Hchain).
  rewrite (dlqSubmissions_chain _ _ _ _ _ _ _ Hchain).
  rewrite (increments_chain_other "kafka_queue.event_pipeline.step.error" _ _ _ _ _ _ _
             ltac:(easy) Hchain).
  revert Hturn. turn_cases this lastName lastArgs w1; intros Hturn;
    inversion Hturn; subst; cbn [ending] in Hend; try discriminate;
    inversion Hend; subst;
    (split; [assumption || reflexivity |]);
    unfold guardedCall, guardedMiss, errorReported, statsdIncrements;
    destruct (statsd (hub this)); cbn; auto.
Qed.

Ltac read_final :=
  unfold stepCompleted, stepIsFinal, guardedCall, guardedMiss, errorReported,
    dlqFailureReported, statsdIncrements, statsdTimings;
  match goal with
  | this : EventPipelineRunner |- _ => destruct (statsd (hub this))
  end;
  cbn; auto.

(** X2. Started at a name that is no member of [Object.prototype], with
    steps that continue with no such name, a result without [error] is
    the result of a step that returned [null]: the steps called before it
    form a chain, [lastStep] is a registered step that fulfilled with
    [null], [args] are its arguments serialized in the store it left, and
    on the way nothing was reported to Sentry and nothing handed to the
    Kafka producer. *)
Theorem result_without_error_comes_from_null this fuel name (seeds : list Arg) w r w' t :
  includes objectPrototypeMembers name = false ->
  continuesWithOwnNames this ->
  runPipeline this fuel name seeds w = (Returns r, w', t) ->
  error r = None ->
  exists n lastArgs w1 t1 step s,
    chain this n (name, seeds) w (lastStep r, lastArgs) w1 t1
    /\ n < fuel
    /\ registry_get EVENT_PIPELINE_STEPS (lastStep r) = Some step
    /\ step this lastArgs (store w1) = (Fulfilled None, s)
    /\ args r = map (serialize s) lastArgs
    /\ w' = afterStep w1 s
    /\ sentryReports t = []
    /\ dlqSubmissions t = [].
Proof.
  intros _ _ Hrun Herror.
  destruct (runPipeline_inversion this fuel name seeds w (Returns r) w' t Hrun ltac:(easy))
    as (n & lastName & lastArgs & w1 & t1 & turn & t2 & Hchain & Hn & Hturn & Hend & ->).
  rewrite sentryReports_app, dlqSubmissions_app.
  rewrite (sentryReports_chain _ _ _ _ _ _ _ Hchain).
  rewrite (dlqSubmissions_chain _ _ _ _ _ _ _ Hchain).
  revert Hturn. turn_cases this lastName lastArgs w1; intros Hturn;
    inversion Hturn; subst; cbn [ending] in Hend; try discriminate;
    inversion Hend; subst; cbn [error] in Herror; try discriminate.
  exists n, lastArgs, w1, t1, step, s. cbn [lastStep args].
  repeat split; try assumption; try reflexivity; read_final.
Qed.


(** ** What holds of every run

    A property of runs that holds of the run out of fuel, is kept by a
    turn that continues, and holds of what a last turn returns or throws,
    holds of every run. *)

Lemma runPipeline_runs this
      (P : World Ext -> Completion EventPipelineResult -> World Ext
           -> list (Effect ProducerRecord) -> Prop) :
  (forall w, P w OutOfFuel w []) ->
  (forall name args w,
      match runPipeline_turn this name args w with
      | (Returns (inl next), w1, t1) =>
          forall c w2 t2, P w1 c w2 t2 -> P w c w2 (t1 ++ t2)
      | (Returns (inr result), w1, t1) => P w (Returns result) w1 t1
      | (Throws e, w1, t1) => P w (Throws e) w1 t1
      | (OutOfFuel, w1, t1) => P w OutOfFuel w1 t1
      end) ->
  forall fuel name args w,
    P w (fst (fst (runPipeline this fuel name args w)))
        (snd (fst (runPipeline this fuel name args w)))
        (snd (runPipeline this fuel name args w)).
Proof.
  intros Hstart Hturn. induction fuel as [| fuel IH]; intros name args w.
  - apply Hstart.
  - cbn [runPipeline]. unfold bind. specialize (Hturn name args w).
    destruct (runPipeline_turn this name args w)
      as [[[[[name' args'] | result] | e |] w1] t1]; cbn [fst snd].
    + specialize (IH name' args' w1).
      destruct (runPipeline this fuel name' args' w1) as [[c w2] t2]. cbn [fst snd] in *.
      now apply Hturn.
    + cbn. now rewrite app_nil_r.
    + exact Hturn.
    + exact Hturn.
Qed.


Lemma timings_app (counter : string) (t1 t2 : list (Effect ProducerRecord)) :
  timings counter (t1 ++ t2) = timings counter t1 ++ timings counter t2.
Proof. apply flat_map_app. Qed.

(** X5. Started at a name that is no member of [Object.prototype], with
    steps that continue with no such name, on a hub with a statsd client:
    the step counter and the step timing are sent once for each call of a
    step function that fulfilled, in the order of the calls and tagged
    with the name of the step, and for nothing else.  The calls of a run
    that is still looping, or that returns a result without error, are
    all counted.  When the run throws, or returns the failure of a
    registered step, the calls are those counted and one more, the call
    that rejected, which is the last and is not counted.  When the run
    returns the failure of a name that is not registered, that name was
    not called and nothing was counted for it. *)
Theorem step_counter_follows_the_calls this fuel name args w client :
  statsd (hub this) = Some client ->
  includes objectPrototypeMembers name = false ->
  continuesWithOwnNames this ->
  exists counted,
    increments "kafka_queue.event_pipeline.step" (snd (runPipeline this fuel name args w))
    = map stepTag counted
    /\ timings "kafka_queue.event_pipeline.step.timing"
               (snd (runPipeline this fuel name args w))
       = map stepTag counted
    /\ match fst (fst (runPipeline this fuel name args w)) with
       | Returns r =>
           match error r, registry_get EVENT_PIPELINE_STEPS (lastStep r) with
           | Some _, Some _ =>
               exists lastArgs,
                 stepsInvoked (snd (runPipeline this fuel name args w))
                 = counted ++ [(lastStep r, lastArgs)]
           | _, _ => stepsInvoked (snd (runPipeline this fuel name args w)) = counted
           end
       | Throws _ =>
           exists rejected,
             stepsInvoked (snd (runPipeline this fuel name args w)) = counted ++ [rejected]
       | OutOfFuel => stepsInvoked (snd (runPipeline this fuel name args w)) = counted
       end.
Proof.
  intros Hclient _ _.
  apply (runPipeline_runs this
           (fun _ c _ t =>
              exists counted,
                increments "kafka_queue.event_pipeline.step" t = map stepTag counted
                /\ timings "kafka_queue.event_pipeline.step.timing" t = map stepTag counted
                /\ match c with
                   | Returns r =>
                       match error r, registry_get EVENT_PIPELINE_STEPS (lastStep r) with
                       | Some _, Some _ =>
                           exists lastArgs, stepsInvoked t = counted ++ [(lastStep r, lastArgs)]
                       | _, _ => stepsInvoked t = counted
                       end
                   | Throws _ => exists rejected, stepsInvoked t = counted ++ [rejected]
                   | OutOfFuel => stepsInvoked t = counted
                   end)).
  - intros _. exists []. repeat split.
  - clear name args w. intros name args w.
    assert (forall t : list (Effect ProducerRecord),
               increments "kafka_queue.event_pipeline.step" (stepCompleted this name args w ++ t)
               = stepTag (name, args) :: increments "kafka_queue.event_pipeline.step" t
               /\ timings "kafka_queue.event_pipeline.step.timing"
                          (stepCompleted this name args w ++ t)
                  = stepTag (name, args) :: timings "kafka_queue.event_pipeline.step.timing" t
               /\ stepsInvoked (stepCompleted this name args w ++ t)
                  = (name, args) :: stepsInvoked t) as Hcompleted.
    { intros t. rewrite increments_app, timings_app, stepsInvoked_app.
      unfold stepCompleted, guardedCall, statsdIncrements, statsdTimings.
      rewrite Hclient. repeat split. }
    assert (forall err s (t : list (Effect ProducerRecord)),
               increments "kafka_queue.event_pipeline.step"
                          (errorReported this err name args s ++ t)
               = increments "kafka_queue.event_pipeline.step" t
               /\ timings "kafka_queue.event_pipeline.step.timing"
                          (errorReported this err name args s ++ t)
                  = timings "kafka_queue.event_pipeline.step.timing" t
               /\ stepsInvoked (errorReported this err name args s ++ t) = stepsInvoked t)
      as Hreported.
    { intros err s t. rewrite increments_app, timings_app, stepsInvoked_app.
      unfold errorReported, statsdIncrements. rewrite Hclient. repeat split. }
    turn_cases this name args w.
    + intros c w2 t2 (counted & Hcount & Htime & Hcalls).
      destruct (Hcompleted t2) as (-> & -> & ->). rewrite Hcount, Htime.
      exists ((name, args) :: counted). split; [reflexivity |]. split; [reflexivity |].
      destruct c as [r | e |].
      * destruct (error r), (registry_get EVENT_PIPELINE_STEPS (lastStep r));
          try (now rewrite Hcalls).
        destruct Hcalls as [lastArgs ->]. now exists lastArgs.
      * destruct Hcalls as [rejected ->]. now exists rejected.
      * now rewrite Hcalls.
    + exists [(name, args)]. destruct (Hcompleted (stepIsFinal this name)) as (-> & -> & ->).
      unfold stepIsFinal, statsdIncrements. rewrite Hclient. repeat split.
    + exists []. rewrite increments_app, timings_app, stepsInvoked_app.
      destruct (Hreported err (store (afterStep w s)) []) as (Hi & Ht & Hs).
      rewrite app_nil_r in Hi, Ht, Hs. rewrite Hi, Ht, Hs.
      repeat split. now exists (name, args).
    + exists []. rewrite increments_app, timings_app, stepsInvoked_app.
      destruct (Hreported err (store (afterStep w s))
                  ([QueueMessage (generateEventDeadLetterQueueMessage (originalEvent this) err)]
                   ++ statsdIncrements (hub this) "events_added_to_dead_letter_queue" []))
        as (-> & -> & ->).
      unfold statsdIncrements. rewrite Hclient. cbn [error lastStep]. rewrite Hreg.
      repeat split. now exists args.
    + exists []. rewrite increments_app, timings_app, stepsInvoked_app.
      destruct (Hreported err (store (afterStep w s))
                  ([QueueMessage (generateEventDeadLetterQueueMessage (originalEvent this) err)]
                   ++ dlqFailureReported this err dlqError name args (store (afterStep w s))))
        as (-> & -> & ->).
      cbn [error lastStep]. rewrite Hreg. repeat split. now exists args.
    + exists []. rewrite increments_app, timings_app, stepsInvoked_app.
      destruct (Hreported err (store (afterStep w s)) []) as (Hi & Ht & Hs).
      rewrite app_nil_r in Hi, Ht, Hs. rewrite Hi, Ht, Hs.
      cbn [error lastStep]. rewrite Hreg. repeat split. now exists args.
    + discriminate.
    + exists []. rewrite increments_app, timings_app, stepsInvoked_app.
      destruct (Hreported notAFunction (store (afterStep w (store w)))
                  ([QueueMessage
                      (generateEventDeadLetterQueueMessage (originalEvent this) notAFunction)]
                   ++ statsdIncrements (hub this) "events_added_to_dead_letter_queue" []))
        as (-> & -> & ->).
      unfold statsdIncrements. rewrite Hclient. cbn [error lastStep]. rewrite Hreg.
      repeat split.
    + exists []. rewrite increments_app, timings_app, stepsInvoked_app.
      destruct (Hreported notAFunction (store (afterStep w (store w)))
                  ([QueueMessage
                      (generateEventDeadLetterQueueMessage (originalEvent this) notAFunction)]
                   ++ dlqFailureReported this notAFunction dlqError name args
                        (store (afterStep w (store w)))))
        as (-> & -> & ->).
      cbn [error lastStep]. rewrite Hreg. repeat split.
    + exists []. rewrite increments_app, timings_app, stepsInvoked_app.
      destruct (Hreported notAFunction (store (afterStep w (store w))) []) as (Hi & Ht & Hs).
      rewrite app_nil_r in Hi, Ht, Hs. rewrite Hi, Ht, Hs.
      cbn [error lastStep]. rewrite Hreg. repeat split.
Qed.

(** X6. On a hub with a statsd client, the counter of last steps is
    incremented exactly when the run returns a result without error, and
    then once, tagged with the step that returned [null] and with the team
    of the [originalEvent] of the runner; a run that returns a failure,
    throws or is still looping has not incremented it. *)
Theorem last_step_counter_marks_success this fuel name args w client :
  statsd (hub this) = Some client ->
  increments "kafka_queue.event_pipeline.step.last" (snd (runPipeline this fuel name args w))
  = match fst (fst (runPipeline this fuel name args w)) with
    | Returns r =>
        match error r with
        | None => [[("step", lastStep r);
                    ("team_id", String_of_number (team_id (originalEvent this)))]]
        | Some _ => []
        end
    | _ => []
    end.
Proof.
  intros Hclient.
  apply (runPipeline_runs this
           (fun _ c _ t =>
              increments "kafka_queue.event_pipeline.step.last" t
              = match c with
                | Returns r =>
                    match error r with
                    | None => [[("step", lastStep r);
                                ("team_id", String_of_number (team_id (originalEvent this)))]]
                    | Some _ => []
                    end
                | _ => []
                end)).
  - reflexivity.
  - clear name args w. intros name args w.
    turn_cases this name args w;
      try (intros c w2 t2 Hrest; rewrite increments_app, Hrest);
      unfold stepCompleted, stepIsFinal, guardedCall, guardedMiss, errorReported,
        dlqFailureReported, statsdIncrements, statsdTimings;
      rewrite Hclient; reflexivity.
Qed.

(** A run discards no person container that the steps and the Kafka
    producer do not discard. *)
Lemma runPipeline_keeps_containers this fuel name args w :
  (forall stepName step,
      registry_get EVENT_PIPELINE_STEPS stepName = Some step ->
      forall runner stepArgs s,
        personContainers s ⊆ personContainers (snd (step runner stepArgs s))) ->
  (forall record s, personContainers s ⊆ personContainers (snd (queueMessage record s))) ->
  personContainers (store w)
  ⊆ personContainers (store (snd (fst (runPipeline this fuel name args w)))).
Proof.
  intros Hsteps Hqueue.
  apply (runPipeline_runs this
           (fun w0 _ w1 _ => personContainers (store w0) ⊆ personContainers (store w1))).
  - intros w0. set_solver.
  - clear name args w. intros name args w.
    turn_cases this name args w;
      try (intros c w2 t2 Hrest; cbn [store afterStep withStore] in Hrest);
      cbn [store afterStep withStore];
      repeat match goal with
        | Hr : registry_get _ name = Some ?f, H : ?f this args (store w) = _ |- _ =>
            let Hkept := fresh "Hkept" in
            pose proof (Hsteps _ _ Hr this args (store w)) as Hkept;
            rewrite H in Hkept; cbn [snd] in Hkept; clear H
        | H : queueMessage ?m ?s0 = _ |- _ =>
            let Hkept := fresh "Hkept" in
            pose proof (Hqueue m s0) as Hkept;
            rewrite H in Hkept; cbn [snd store afterStep] in Hkept; clear H
        end;
      set_solver.
Qed.

(** X7. The runner itself changes nothing in the store: every change comes
    from a step function or from the Kafka producer.  A relation between
    stores that is reflexive and transitive, and that every step of the
    registry and [queueMessage] keep, holds between the store a run of
    [runPipeline] starts in and the store it leaves. *)
Theorem runPipeline_keeps_what_the_collaborators_keep
        (R : Store Ext -> Store Ext -> Prop) this fuel name args w :
  (forall s, R s s) ->
  (forall s1 s2 s3, R s1 s2 -> R s2 s3 -> R s1 s3) ->
  (forall stepName step, registry_get EVENT_PIPELINE_STEPS stepName = Some step ->
                         forall runner stepArgs s, R s (snd (step runner stepArgs s))) ->
  (forall record s, R s (snd (queueMessage record s))) ->
  R (store w) (store (snd (fst (runPipeline this fuel name args w)))).
Proof.
  intros Hrefl Htrans Hsteps Hqueue.
  apply (runPipeline_runs this (fun w0 _ w1 _ => R (store w0) (store w1))).
  - intros w0. apply Hrefl.
  - clear name args w. intros name args w.
    turn_cases this name args w;
      try (intros c w2 t2 Hrest; cbn [store afterStep withStore] in Hrest);
      cbn [store afterStep withStore];
      repeat match goal with
        | Hr : registry_get _ name = Some ?f, H : ?f this args (store w) = _ |- _ =>
            let Hkept := fresh "Hkept" in
            pose proof (Hsteps _ _ Hr this args (store w)) as Hkept;
            rewrite H in Hkept; cbn [snd] in Hkept; clear H
        | H : queueMessage ?m ?s0 = _ |- _ =>
            let Hkept := fresh "Hkept" in
            pose proof (Hqueue m s0) as Hkept;
            rewrite H in Hkept; cbn [snd store afterStep] in Hkept; clear H
        end;
      eauto 3.
Qed.

(** X8. The steps that are dead-lettered on failure are the registered
    steps other than [runAsyncHandlersStep]: every name of
    [STEPS_TO_EMIT_TO_DLQ_ON_FAILURE] is a key of [EVENT_PIPELINE_STEPS],
    and [runAsyncHandlersStep] is the one key left out. *)
Theorem dead_letterable_steps_are_the_other_registered_steps name :
  includes STEPS_TO_EMIT_TO_DLQ_ON_FAILURE name = true
  <-> (exists step, registry_get EVENT_PIPELINE_STEPS name = Some step)
      /\ name <> "runAsyncHandlersStep".
Proof.
  split.
  - intros Hdlq. split.
    + destruct (registry_get EVENT_PIPELINE_STEPS name) as [step |] eqn:Hreg; [now exists step |].
      rewrite (not_dead_letterable_unregistered _ Hreg) in Hdlq. discriminate.
    + intros ->. discriminate.
  - intros [[step Hreg] Hname]. exact (dead_letterable_registered _ _ Hreg Hname).
Qed.

(** X9. On a hub with a statsd client, the counter of events added to the
    dead letter queue counts the records the Kafka producer accepted: it
    is incremented once when [queueMessage] fulfils, and not at all when
    [queueMessage] rejects. *)
Theorem dead_letter_counter_counts_accepted_records
        this n name args w lastName lastArgs w' t step err s client outcome s2 :
  chain this n (name, args) w (lastName, lastArgs) w' t ->
  registry_get EVENT_PIPELINE_STEPS lastName = Some step ->
  step this lastArgs (store w') = (Rejected err, s) ->
  isDependencyUnavailable err = false ->
  lastName <> "runAsyncHandlersStep" ->
  statsd (hub this) = Some client ->
  queueMessage (generateEventDeadLetterQueueMessage (originalEvent this) err) s
  = (outcome, s2) ->
  forall fuel, n < fuel ->
    increments "events_added_to_dead_letter_queue" (snd (runPipeline this fuel name args w))
    = match outcome with
      | Fulfilled _ => [[]]
      | Rejected _ => []
      end.
Proof.
  intros Hchain Hreg Hstep Hdu Hname Hclient Hsent fuel Hfuel.
  pose proof (dead_letterable_registered _ _ Hreg Hname) as Hdlq.
  pose proof (increments_chain_other "events_added_to_dead_letter_queue" _ _ _ _ _ _ _
                ltac:(easy) Hchain) as Hquiet.
  destruct outcome as [[] | dlqError].
  - rewrite (runPipeline_rejection _ _ _ _ _ _ _ _ _ _ _ _ _ _ _ _
               Hchain Hreg Hstep Hfuel
               (caught_submits _ _ _ _ (afterStep w' s) _ _ Hdu Hdlq Hsent)).
    cbn [snd]. rewrite increments_app, Hquiet.
    unfold guardedCall, errorReported, statsdIncrements. now rewrite Hclient.
  - rewrite (runPipeline_rejection _ _ _ _ _ _ _ _ _ _ _ _ _ _ _ _
               Hchain Hreg Hstep Hfuel
               (caught_submission_fails _ _ _ _ (afterStep w' s) _ _ _ Hdu Hdlq Hsent)).
    cbn [snd]. rewrite increments_app, Hquiet.
    unfold guardedCall, errorReported, dlqFailureReported, statsdIncrements.
    now rewrite Hclient.
Qed.

(** ** More on the entry points *)

Lemma containersCreated_app (t1 t2 : list (Effect ProducerRecord)) :
  containersCreated (t1 ++ t2) = containersCreated t1 ++ containersCreated t2.
Proof. apply flat_map_app. Qed.

Lemma runPipeline_creates_no_container this fuel name args w :
  containersCreated (snd (runPipeline this fuel name args w)) = [].
Proof.
  apply (runPipeline_runs this (fun _ _ _ t => containersCreated t = [])).
  - reflexivity.
  - clear name args w. intros name args w.
    turn_cases this name args w;
      try (intros c w2 t2 Hrest; rewrite containersCreated_app, Hrest);
      unfold stepCompleted, stepIsFinal, guardedCall, guardedMiss, errorReported,
        dlqFailureReported, statsdIncrements, statsdTimings;
      destruct (statsd (hub this)); reflexivity.
Qed.

Lemma runPipeline_never_starts v this fuel name args w :
  increments (startCounter v) (snd (runPipeline this fuel name args w)) = [].
Proof.
  apply (runPipeline_runs this (fun _ _ _ t => increments (startCounter v) t = [])).
  - reflexivity.
  - clear name args w. intros name args w.
    turn_cases this name args w;
      try (intros c w2 t2 Hrest; rewrite increments_app, Hrest);
      unfold stepCompleted, stepIsFinal, guardedCall, guardedMiss, errorReported,
        dlqFailureReported, statsdIncrements, statsdTimings;
      destruct (statsd (hub this)), v; reflexivity.
Qed.

Lemma pipelineStarted_startCounter this v :
  pipelineStarted (ProducerRecord := ProducerRecord) this v
  = statsdIncrements (hub this) (startCounter v) (startTags v).
Proof. now destruct v. Qed.

(** X10. Every entry point begins with its start counter: on a hub with a
    statsd client the first call of a run of an entry point is the
    increment of that counter, tagged with the pipeline, and the counter is
    incremented exactly once in the run, however the run ends: with a
    result, with a thrown error, or with the person lookup of the buffer
    pipeline rejecting. *)
Theorem entry_points_count_their_start_once this fuel v w client :
  statsd (hub this) = Some client ->
  hd_error (snd (runVariant this fuel v w))
  = Some (StatsdIncrement (startCounter v) (startTags v))
  /\ increments (startCounter v) (snd (runVariant this fuel v w)) = [startTags v].
Proof.
  intros Hclient. rewrite runVariant_entry, pipelineStarted_startCounter.
  pose proof (increments_self (hub this) (startCounter v) (startTags v)) as Hself.
  rewrite Hclient in Hself.
  assert (increments (startCounter v) (snd (entry this v w)) = []) as Hentry.
  { destruct v; try reflexivity. cbn [entry].
    now destruct (LazyPersonContainer_get _ _) as [found s]. }
  destruct (entry this v w) as [[[[seeds tags] | err] w1] t0]; cbn [snd] in Hentry.
  - pose proof (runPipeline_never_starts v this fuel (startingStep v) seeds w1) as Hloop.
    destruct (runPipeline this fuel (startingStep v) seeds w1) as [[[r | e |] w2] t2];
      cbn [around snd] in *; split;
      try (unfold statsdIncrements; rewrite Hclient; reflexivity);
      rewrite !increments_app, Hself, Hentry, Hloop; try reflexivity.
    unfold statsdIncrements. rewrite Hclient.
    destruct v; reflexivity.
  - cbn [snd]. split.
    + unfold statsdIncrements. now rewrite Hclient.
    + now rewrite increments_app, Hself, Hentry.
Qed.

(** The containers an entry point creates: none for the two pipelines that
    are seeded with the event only, one for the other two. *)
Lemma containersCreated_runVariant this fuel v w :
  containersCreated (snd (runVariant this fuel v w))
  = match v with
    | LightweightCapture _ | LiveEvent _ => []
    | BufferedEvent event => [newContainer w (team_id event) (distinct_id event)]
    | AsyncHandlers event => [newContainer w (Some (teamId event)) (distinctId event)]
    end.
Proof.
  rewrite runVariant_entry.
  assert (forall h counter tags,
             containersCreated
               (statsdIncrements (ProducerRecord := ProducerRecord) h counter tags) = [])
    as Hstatsd.
  { intros h counter tags. unfold statsdIncrements. now destruct (statsd h). }
  assert (forall seeds tags w1,
             containersCreated
               (snd (around (pipelineStarted this v ++ snd (entry this v w))
                            (statsdIncrements (hub this) (postRunCounter v) tags)
                            (runPipeline this fuel (startingStep v) seeds w1)))
             = containersCreated (snd (entry this v w))) as Haround.
  { intros seeds tags w1.
    pose proof (runPipeline_creates_no_container this fuel (startingStep v) seeds w1) as Hloop.
    destruct (runPipeline this fuel (startingStep v) seeds w1) as [[[r | e |] w2] t2];
      cbn [around snd] in *;
      rewrite !containersCreated_app, ?Hloop, ?Hstatsd, pipelineStarted_startCounter, Hstatsd;
      now rewrite ?app_nil_r. }
  destruct (entry this v w) as [[[[seeds tags] | err] w1] t0] eqn:Hentry.
  - specialize (Haround seeds tags w1). cbn [snd] in Haround. rewrite Haround.
    destruct v; cbn [entry] in Hentry.
    + now inversion Hentry.
    + now inversion Hentry.
    + destruct (LazyPersonContainer_get _ _) as [[found | err] s];
        inversion Hentry; reflexivity.
    + now inversion Hentry.
  - cbn [snd]. rewrite containersCreated_app, pipelineStarted_startCounter, Hstatsd.
    destruct v; cbn [entry] in Hentry; try discriminate.
    destruct (LazyPersonContainer_get _ _) as [[found | err'] s];
      inversion Hentry; reflexivity.
Qed.

(** When the collaborators discard no person container, an entry point
    discards none, and the container it creates is in the store it
    leaves. *)
Lemma runVariant_keeps_containers this fuel v w :
  (forall stepName step,
      registry_get EVENT_PIPELINE_STEPS stepName = Some step ->
      forall runner stepArgs s,
        personContainers s ⊆ personContainers (snd (step runner stepArgs s))) ->
  (forall record s, personContainers s ⊆ personContainers (snd (queueMessage record s))) ->
  (forall c s, personContainers s ⊆ personContainers (snd (LazyPersonContainer_get c s))) ->
  forall c, In c (containersCreated (snd (runVariant this fuel v w))) ->
            pc_ref c ∈ personContainers (store (snd (fst (runVariant this fuel v w)))).
Proof.
  intros Hsteps Hqueue Hget c Hcreated.
  rewrite containersCreated_runVariant in Hcreated.
  assert (forall seeds w1,
             personContainers (store w1)
             ⊆ personContainers
                 (store (snd (fst (runPipeline this fuel (startingStep v) seeds w1)))))
    as Hloop.
  { intros seeds w1.
    exact (runPipeline_keeps_containers this fuel (startingStep v) seeds w1 Hsteps Hqueue). }
  assert (forall (A : Type) before after (loop : Completion A * World Ext * list _),
             snd (fst (around (ProducerRecord := ProducerRecord) before after loop))
             = snd (fst loop)) as Hworld.
  { intros A before after [[[r | e |] w2] t2]; reflexivity. }
  rewrite runVariant_entry.
  destruct v as [event | event | event | event]; cbn [entry] in *;
    try (now destruct Hcreated).
  - destruct Hcreated as [<- | []].
    specialize (Hget (newContainer w (team_id event) (distinct_id event))
                     (store (afterNew w))).
    destruct (LazyPersonContainer_get _ _) as [[found | err] s]; cbn [snd] in Hget.
    + rewrite Hworld. apply Hloop. cbn [withStore store]. apply Hget.
      cbn [afterNew store personContainers newContainer pc_ref]. set_solver.
    + cbn [fst snd withStore store]. apply Hget.
      cbn [afterNew store personContainers newContainer pc_ref]. set_solver.
  - destruct Hcreated as [<- | []].
    rewrite Hworld. apply Hloop.
    cbn [afterNew store personContainers newContainer pc_ref]. set_solver.
Qed.

(** X11. Person containers are not shared between invocations: when no
    step, nor the Kafka producer, nor the person lookup discards a person
    container of the store, the container an entry point creates is
    different from every container created by the entry point that ran
    before it, whichever entry points, runners and events these are. *)
Theorem person_containers_are_not_shared
        this fuel v w this' fuel' v' (c c' : LazyPersonContainer) :
  (forall stepName step,
      registry_get EVENT_PIPELINE_STEPS stepName = Some step ->
      forall runner stepArgs s,
        personContainers s ⊆ personContainers (snd (step runner stepArgs s))) ->
  (forall record s, personContainers s ⊆ personContainers (snd (queueMessage record s))) ->
  (forall p s, personContainers s ⊆ personContainers (snd (LazyPersonContainer_get p s))) ->
  In c (containersCreated (snd (runVariant this fuel v w))) ->
  In c' (containersCreated
           (snd (runVariant this' fuel' v' (snd (fst (runVariant this fuel v w)))))) ->
  pc_ref c' <> pc_ref c.
Proof.
  intros Hsteps Hqueue Hget Hfirst Hsecond.
  pose proof (runVariant_keeps_containers this fuel v w Hsteps Hqueue Hget c Hfirst) as Hkept.
  rewrite containersCreated_runVariant in Hsecond.
  pose proof (is_fresh (personContainers (store (snd (fst (runVariant this fuel v w))))))
    as Hfresh.
  destruct v' as [event | event | event | event]; try (now destruct Hsecond);
    destruct Hsecond as [<- | []]; cbn [newContainer pc_ref]; congruence.
Qed.

(** X12. With steps that continue with no member of [Object.prototype]
    and that reject with [Error] objects, an entry point throws only what
    its caller has to retry: the [DependencyUnavailableError] of a step,
    or, for the buffer pipeline, the error with which the person lookup
    before the loop rejected.  Every other error of a step comes back in
    a result. *)
Theorem entry_points_throw_only_what_is_to_be_retried this fuel v w e w' t :
  continuesWithOwnNames this ->
  runVariant this fuel v w = (Throws e, w', t) ->
  isDependencyUnavailable e = true
  \/ exists event s,
      v = BufferedEvent event
      /\ LazyPersonContainer_get (newContainer w (team_id event) (distinct_id event))
                                 (store (afterNew w))
         = (Rejected e, s).
Proof.
  intros _. rewrite runVariant_entry. intros Hrun.
  assert (forall seeds tags w1 before,
             around before (statsdIncrements (hub this) (postRunCounter v) tags)
                    (runPipeline this fuel (startingStep v) seeds w1)
             = (Throws e, w', t) ->
             isDependencyUnavailable e = true) as Hloop.
  { intros seeds tags w1 before Haround.
    destruct (runPipeline this fuel (startingStep v) seeds w1)
      as [[[r | e' |] w2] t2] eqn:Hpipeline; cbn [around] in Haround;
      inversion Haround; subst.
    exact (runPipeline_thrown _ _ _ _ _ _ _ _ Hpipeline). }
  destruct v as [event | event | event | event]; cbn [entry] in Hrun;
    try (left; exact (Hloop _ _ _ _ Hrun)).
  destruct (LazyPersonContainer_get (newContainer w (team_id event) (distinct_id event))
              (store (afterNew w))) as [[found | err] s] eqn:Hget.
  - left. exact (Hloop _ _ _ _ Hrun).
  - right. inversion Hrun; subst. now exists event, s.
Qed.

(** ** What leaves the runner *)

Lemma serialize_projects (s : Store Ext) (l : list Arg) :
  Forall2 (projects (loadedContainers s)) l (map (serialize s) l).
Proof.
  induction l as [| a l IH]; constructor; [| exact IH].
  destruct a; cbn; auto.
  repeat split; auto.
  - apply bool_decide_eq_true_1.
  - apply bool_decide_eq_true_2.
Qed.

Lemma sentryContexts_app (t1 t2 : list (Effect ProducerRecord)) :
  sentryContexts (t1 ++ t2) = sentryContexts t1 ++ sentryContexts t2.
Proof. apply flat_map_app. Qed.

Lemma sentryContexts_chain this n start w last w' t :
  chain this n start w last w' t -> sentryContexts t = [].
Proof.
  induction 1 as [| n name args w step next s last w' t _ _ _ IH]; [reflexivity |].
  rewrite sentryContexts_app, IH.
  unfold stepCompleted, statsdIncrements, statsdTimings.
  now destruct (statsd (hub this)).
Qed.

(** X16. Started at a name that is no member of [Object.prototype], with
    steps that continue with no such name: a run that has ended went
    along a chain of steps to its last turn, and what leaves the runner
    shows the arguments of that turn with every person container replaced
    by its own projection.  The [args] of a result are the arguments of
    the last turn, a container shown by its own [teamId] and [distinctId]
    and by whether it is loaded in the store the run leaves, any other
    argument as it is; the context of every report to Sentry has the name
    of the last turn, its arguments shown in the same way, in the store
    the call of the step left, and the [originalEvent] of the runner. *)
Theorem no_person_container_leaves_the_runner
        this fuel name (seeds : list Arg) w completion w' t :
  includes objectPrototypeMembers name = false ->
  continuesWithOwnNames this ->
  runPipeline this fuel name seeds w = (completion, w', t) ->
  completion <> OutOfFuel ->
  exists n lastName lastArgs w1 t1 turn t2,
    chain this n (name, seeds) w (lastName, lastArgs) w1 t1
    /\ n < fuel
    /\ runPipeline_turn this lastName lastArgs w1 = (turn, w', t2)
    /\ ending turn = completion
    /\ t = t1 ++ t2
    /\ (forall r, completion = Returns r ->
                  lastStep r = lastName
                  /\ Forall2 (projects (loadedContainers (store w'))) lastArgs (args r))
    /\ Forall (fun context =>
                 extra_currentStepName context = lastName
                 /\ Forall2 (projects (loadedContainers
                                         (settledStore this lastName lastArgs (store w1))))
                            lastArgs (extra_serializedArgs context)
                 /\ extra_originalEvent context = originalEvent this)
              (sentryContexts t).
Proof.
  intros _ _ Hrun Hended.
  destruct (runPipeline_inversion this fuel name seeds w completion w' t Hrun Hended)
    as (n & lastName & lastArgs & w1 & t1 & turn & t2 & Hchain & Hn & Hturn & Hend & ->).
  exists n, lastName, lastArgs, w1, t1, turn, t2.
  do 5 (split; [assumption || reflexivity |]).
  rewrite sentryContexts_app, (sentryContexts_chain _ _ _ _ _ _ _ Hchain). cbn [app].
  unfold settledStore.
  revert Hturn. turn_cases this lastName lastArgs w1; intros Hturn;
    inversion Hturn; subst; cbn [ending] in *; try discriminate;
    try (now destruct Hended);
    (split;
     [ intros r Hr; inversion Hr; subst; cbn [lastStep args store afterStep withStore];
       (split; [reflexivity | apply serialize_projects])
     | ]);
    rewrite ?Hstep; cbn [snd];
    unfold stepCompleted, stepIsFinal, guardedCall, guardedMiss, errorReported,
      dlqFailureReported, statsdIncrements, statsdTimings;
    destruct (statsd (hub this)); cbn;
    repeat constructor; cbn; auto using serialize_projects.
Qed.

End RunnerFacts.

(** ** The claims, on the sample collaborators *)

Import Sample.

(** C1, on the sample: [prepareEventStep] continues with
    [createEventStep], which returns [null]. *)
Lemma runPipeline_returns_when_step_returns_null_witness :
  fst (fst (runPipeline (runner withStatsd) 1 "prepareEventStep"
                        [ArgEvent (anEvent "fine")] (world true)))
  = OutOfFuel
  /\ fst (fst (runPipeline (runner withStatsd) 2 "prepareEventStep"
                           [ArgEvent (anEvent "fine")] (world true)))
     = Returns (mkResult "createEventStep" [SerSame (ArgEvent (anEvent "fine"))] None).
Proof.
  pose proof (chain_step (runner withStatsd) 0 "prepareEventStep"
                [ArgEvent (anEvent "fine")] (world true) _ _ _ _ _ _
                eq_refl eq_refl (chain_done _ _ _)) as Hchain.
  destruct (runPipeline_returns_when_step_returns_null
              _ _ _ _ _ _ _ _ _ _ _ Hchain eq_refl eq_refl) as (Hrunning & Hreturns & _).
  split.
  - apply Hrunning. lia.
  - rewrite Hreturns by lia. reflexivity.
Defined.

(** C2, on the sample: [createEventStep] finds the database down. *)
Lemma dependency_unavailable_is_rethrown_witness :
  fst (fst (runPipeline (runner withStatsd) 2 "prepareEventStep"
                        [ArgEvent (anEvent "unavailable in createEventStep")] (world true)))
  = Throws (mkError DependencyUnavailableError "database is unreachable")
  /\ dlqSubmissions (snd (runPipeline (runner withStatsd) 2 "prepareEventStep"
                            [ArgEvent (anEvent "unavailable in createEventStep")]
                            (world true)))
     = [].
Proof.
  pose proof (chain_step (runner withStatsd) 0 "prepareEventStep"
                [ArgEvent (anEvent "unavailable in createEventStep")] (world true)
                _ _ _ _ _ _ eq_refl eq_refl (chain_done _ _ _)) as Hchain.
  destruct (dependency_unavailable_is_rethrown
              _ _ _ _ _ _ _ _ _ _ _ _ Hchain eq_refl eq_refl eq_refl 2 ltac:(lia))
    as (trace & Hrun & Hdlq).
  rewrite Hrun. split; [reflexivity | exact Hdlq].
Defined.

(** C3, on the sample: [createEventStep] fails on an event a plugin has
    rewritten; the record for the dead letter queue carries the uuid of
    the event as received. *)
Lemma failed_step_is_dead_lettered_once_witness :
  fst (fst (runPipeline (runner withStatsd) 2 "prepareEventStep"
                        [ArgEvent (anEvent "bug in createEventStep")] (world true)))
  = Returns (mkResult "createEventStep"
                      [SerSame (ArgEvent (anEvent "bug in createEventStep"))]
                      (Some "boom"))
  /\ dlqSubmissions (snd (runPipeline (runner withStatsd) 2 "prepareEventStep"
                            [ArgEvent (anEvent "bug in createEventStep")] (world true)))
     = [("017f-aa01", "boom")].
Proof.
  pose proof (chain_step (runner withStatsd) 0 "prepareEventStep"
                [ArgEvent (anEvent "bug in createEventStep")] (world true)
                _ _ _ _ _ _ eq_refl eq_refl (chain_done _ _ _)) as Hchain.
  destruct (failed_step_is_dead_lettered_once
              _ _ _ _ _ _ _ _ _ _ _ _ Hchain eq_refl eq_refl eq_refl
              ltac:(discriminate) 2 ltac:(lia))
    as (s2 & trace & Hrun & Hdlq).
  rewrite Hrun. split; [reflexivity | exact Hdlq].
Defined.

(** C4, on the sample: [runAsyncHandlersStep] fails. *)
Lemma async_handlers_failure_is_not_dead_lettered_witness :
  fst (fst (runPipeline (runner withStatsd) 1 "runAsyncHandlersStep"
                        [ArgPostIngestion (aPostIngestionEvent "bug in runAsyncHandlersStep")]
                        (world true)))
  = Returns (mkResult "runAsyncHandlersStep"
                      [SerSame (ArgPostIngestion
                                  (aPostIngestionEvent "bug in runAsyncHandlersStep"))]
                      (Some "boom"))
  /\ dlqSubmissions (snd (runPipeline (runner withStatsd) 1 "runAsyncHandlersStep"
                            [ArgPostIngestion
                               (aPostIngestionEvent "bug in runAsyncHandlersStep")]
                            (world true)))
     = [].
Proof.
  destruct (@async_handlers_failure_is_not_dead_lettered
              bool (string * string) collaborators
              (runner withStatsd) 0 "runAsyncHandlersStep"
              [ArgPostIngestion (aPostIngestionEvent "bug in runAsyncHandlersStep")]
              (world true) _ _ _ (mkError GenericError "boom") (store (world true))
              (chain_done _ _ _) eq_refl eq_refl 1 ltac:(lia))
    as (trace & Hrun & Hdlq).
  rewrite Hrun. split; [reflexivity | exact Hdlq].
Defined.

(** C6 as stated fails: started at a name the registry does not have, the
    loop calls no step, catches the [TypeError] and returns a result. *)
Lemma unregistered_step_is_caught_and_returned :
  registry_get (EVENT_PIPELINE_STEPS (Ext := bool)) "exportEventsStep" = None
  /\ runPipeline (runner withoutStatsd) 1 "exportEventsStep"
                 [ArgEvent (anEvent "fine")] (world true)
     = (Returns (mkResult "exportEventsStep" [SerSame (ArgEvent (anEvent "fine"))]
                          (Some "EVENT_PIPELINE_STEPS[name] is not a function")),
        mkWorld (mkStore true ∅ ∅) 1 [],
        [ SetTimeoutGuard 0 guardText "exportEventsStep" "{uuid:017f-aa01}";
          ClearTimeout 0;
          StatusInfoError notAFunction;
          SentryCaptureException notAFunction
            (mkExtra "exportEventsStep" [SerSame (ArgEvent (anEvent "fine"))]
                     received None) ]).
Proof. split; reflexivity. Qed.

(** C6, as amended, on the sample. *)
Lemma unregistered_step_is_returned_as_failure_witness :
  fst (fst (runPipeline (runner withStatsd) 1 "exportEventsStep"
                        [ArgEvent (anEvent "fine")] (world true)))
  = Returns (mkResult "exportEventsStep" [SerSame (ArgEvent (anEvent "fine"))]
                      (Some "EVENT_PIPELINE_STEPS[name] is not a function")).
Proof.
  destruct (@unregistered_step_is_returned_as_failure
              bool (string * string) collaborators
              (runner withStatsd) 0 "exportEventsStep" [ArgEvent (anEvent "fine")]
              (world true) _ _ _ _
              (chain_done _ _ _) eq_refl eq_refl 1 ltac:(lia))
    as (trace & Hrun & _).
  rewrite Hrun. reflexivity.
Defined.

(** C7, on the sample: [createEventStep] fails while Kafka is
    unreachable. *)
Lemma dead_letter_failure_is_not_rethrown_witness :
  fst (fst (runPipeline (runner withStatsd) 2 "prepareEventStep"
                        [ArgEvent (anEvent "bug in createEventStep")] (world false)))
  = Returns (mkResult "createEventStep"
                      [SerSame (ArgEvent (anEvent "bug in createEventStep"))]
                      (Some "boom"))
  /\ sentryReports (snd (runPipeline (runner withStatsd) 2 "prepareEventStep"
                           [ArgEvent (anEvent "bug in createEventStep")] (world false)))
     = [mkError GenericError "boom"; mkError GenericError "kafka is unreachable"].
Proof.
  pose proof (chain_step (runner withStatsd) 0 "prepareEventStep"
                [ArgEvent (anEvent "bug in createEventStep")] (world false)
                _ _ _ _ _ _ eq_refl eq_refl (chain_done _ _ _)) as Hchain.
  destruct (dead_letter_failure_is_not_rethrown
              _ _ _ _ _ _ _ _ _ _ _ _ _ _ Hchain eq_refl eq_refl eq_refl
              ltac:(discriminate) eq_refl 2 ltac:(lia))
    as (trace & Hrun & _ & Hsentry).
  rewrite Hrun. split; [reflexivity | exact Hsentry].
Defined.

(** C8, on the sample: the buffer pipeline, in a world with no person
    container yet. *)
Lemma entry_points_seed_the_loop_witness :
  runBufferEventPipeline (runner withStatsd) 4 (anEvent "fine") (world true)
  = around ([StatsdIncrement "kafka_queue.event_pipeline.start" [("pipeline", "buffer")]]
            ++ [NewLazyPersonContainer
                  (newContainer (world true) (Some 2) "user-1");
                PersonContainerGet
                  (newContainer (world true) (Some 2) "user-1")])
           [StatsdIncrement "kafka_queue.buffer_event.processed_and_ingested"
                            [("didPersonExistAtStart", "false")]]
           (runPipeline (runner withStatsd) 4 "pluginsProcessEventStep"
                        [ArgEvent (anEvent "fine");
                         ArgPerson (newContainer (world true) (Some 2) "user-1")]
                        (mkWorld (mkStore true {[0]} {[0]}) 0 [])).
Proof.
  destruct (@entry_points_seed_the_loop bool (string * string) collaborators
              (runner withStatsd) 4 (world true)) as (_ & _ & Hbuffer & _ & _ & _).
  destruct (Hbuffer (anEvent "fine")) as [_ Hrun].
  rewrite (Hrun false (mkStore true {[0]} {[0]})); [reflexivity |].
  vm_compute. reflexivity.
Defined.

(** On the sample: the call of [createEventStep], which returns its
    promise, and the call of a name the registry does not have. *)
Lemma step_calls_are_guarded_and_released_witness :
  snd (runStep (runner withStatsd) "createEventStep" [ArgEvent (anEvent "fine")]
               (world true))
  = [ SetTimeoutGuard 0 guardText "createEventStep" "{uuid:017f-aa01}";
      StepInvoked "createEventStep" [ArgEvent (anEvent "fine")];
      ClearTimeout 0 ]
  /\ runStep (runner withStatsd) "exportEventsStep" [ArgEvent (anEvent "fine")]
             (world true)
     = (Throws notAFunction, mkWorld (mkStore true ∅ ∅) 1 [],
        [ SetTimeoutGuard 0 guardText "exportEventsStep" "{uuid:017f-aa01}";
          ClearTimeout 0 ]).
Proof.
  split.
  - destruct (@step_calls_are_guarded_and_released bool (string * string) collaborators
                (runner withStatsd) "createEventStep" [ArgEvent (anEvent "fine")]
                (world true))
      as ((completion & body & Hrun & Hregistered & _) & _ & _).
    destruct (Hregistered _ eq_refl) as [-> ->]. rewrite Hrun. reflexivity.
  - destruct (@step_calls_are_guarded_and_released bool (string * string) collaborators
                (runner withStatsd) "exportEventsStep" [ArgEvent (anEvent "fine")]
                (world true))
      as ((completion & body & Hrun & _ & Hmissing) & _ & _).
    destruct (Hmissing eq_refl eq_refl) as [-> ->]. rewrite Hrun. reflexivity.
Defined.

(** C9 does not hold of [runStep]: the guard is cleared when the call of
    the step function has returned its promise, not when the step is
    over, so that the step is not executed under the guard.  On the
    sample, [createEventStep] is called for an event on which it fails.
    When [runStep] returns, the guard it acquired has been cleared and no
    timer is pending, while the promise of the step has not settled;
    awaited in the world [runStep] left, the promise rejects: the step
    fails with no guard pending.  In the trace of the turn the guard is
    cleared before the error of the step is handled, and nothing is
    cleared after it. *)
Theorem guard_is_cleared_before_the_step_settles :
  exists promise,
    runStep (runner withStatsd) "createEventStep"
            [ArgEvent (anEvent "bug in createEventStep")] (world true)
    = (Returns promise, mkWorld (mkStore true ∅ ∅) 1 [],
       [ SetTimeoutGuard 0 guardText "createEventStep" "{uuid:017f-aa01}";
         StepInvoked "createEventStep" [ArgEvent (anEvent "bug in createEventStep")];
         ClearTimeout 0 ])
    /\ await (ProducerRecord := string * string) promise (mkWorld (mkStore true ∅ ∅) 1 [])
       = (Throws (mkError GenericError "boom"), mkWorld (mkStore true ∅ ∅) 1 [], [])
    /\ snd (runPipeline_turn (runner withStatsd) "createEventStep"
                             [ArgEvent (anEvent "bug in createEventStep")] (world true))
       = [ SetTimeoutGuard 0 guardText "createEventStep" "{uuid:017f-aa01}";
           StepInvoked "createEventStep" [ArgEvent (anEvent "bug in createEventStep")];
           ClearTimeout 0;
           StatusInfoError (mkError GenericError "boom");
           SentryCaptureException (mkError GenericError "boom")
             (mkExtra "createEventStep"
                      [SerSame (ArgEvent (anEvent "bug in createEventStep"))] received None);
           StatsdIncrement "kafka_queue.event_pipeline.step.error"
                           [("step", "createEventStep")];
           QueueMessage ("017f-aa01", "boom");
           StatsdIncrement "events_added_to_dead_letter_queue" [] ].
Proof.
  exists (Sample.step "createEventStep" None (runner withStatsd)
                      [ArgEvent (anEvent "bug in createEventStep")]).
  split; [reflexivity |]. split; reflexivity.
Qed.

(** C10 as stated fails: on a hub without a statsd client the loop returns
    a result and the counter after it is not incremented. *)
Lemma last_counter_needs_a_statsd_client :
  fst (fst (runPipeline (runner withoutStatsd) 5 "emitToBufferStep"
                        [ArgEvent (anEvent "fine")] (world true)))
  = Returns (mkResult "createEventStep" [SerSame (ArgEvent (anEvent "fine"))] None)
  /\ fst (fst (runEventPipeline (runner withoutStatsd) 5 (anEvent "fine") (world true)))
     = Returns (mkResult "createEventStep" [SerSame (ArgEvent (anEvent "fine"))] None)
  /\ increments "kafka_queue.single_event.processed_and_ingested"
                (snd (runEventPipeline (runner withoutStatsd) 5 (anEvent "fine")
                                       (world true)))
     = [].
Proof. repeat split; reflexivity. Qed.

(** C10, as amended, on the sample: with a statsd client, the event
    pipeline increments its last counter when the loop returns, and not
    when [emitToBufferStep] finds the database down. *)
Lemma last_counter_follows_the_loop_witness :
  increments (postRunCounter (LiveEvent (anEvent "fine")))
             (snd (runVariant (runner withStatsd) 5 (LiveEvent (anEvent "fine"))
                              (world true)))
  <> []
  /\ increments (postRunCounter (LiveEvent (anEvent "unavailable in emitToBufferStep")))
                (snd (runVariant (runner withStatsd) 5
                                 (LiveEvent (anEvent "unavailable in emitToBufferStep"))
                                 (world true)))
     = [].
Proof.
  split.
  - destruct (@last_counter_follows_the_loop bool (string * string) collaborators
                (runner withStatsd) 5 (LiveEvent (anEvent "fine")) (world true)
                [ArgEvent (anEvent "fine")] [] (world true) [] eq_refl)
      as (_ & Hreturns & _).
    apply (Hreturns StatsDClient eq_refl).
    exists (mkResult "createEventStep" [SerSame (ArgEvent (anEvent "fine"))] None).
    vm_compute. reflexivity.
  - destruct (@last_counter_follows_the_loop bool (string * string) collaborators
                (runner withStatsd) 5
                (LiveEvent (anEvent "unavailable in emitToBufferStep")) (world true)
                [ArgEvent (anEvent "unavailable in emitToBufferStep")] [] (world true) []
                eq_refl)
      as (Hthrows & _).
    apply (Hthrows 0 "emitToBufferStep"
                   [ArgEvent (anEvent "unavailable in emitToBufferStep")] (world true) []
                   (Sample.step "emitToBufferStep" (Some "pluginsProcessEventStep"))
                   (mkError DependencyUnavailableError "database is unreachable")
                   (store (world true))).
    + apply chain_done.
    + vm_compute. reflexivity.
    + vm_compute. reflexivity.
    + reflexivity.
    + lia.
Defined.

(** * Properties of the historical export *)

Import HistoricalExport.

(** The timestamps of the test: 05:00 + (05:08 - 05:10) is 04:58, and the
    job of the test covers it. *)
Example skewAdjustedTimestamp_of_the_test :
  skewAdjustedTimestamp testCapture = 17880000%Z
  /\ covers testJob (ingest testCapture) = true.
Proof. split; reflexivity. Qed.

Lemma not_historical (k : string) :
  ~ In k historicalProperties ->
  k <> "$$is_historical_export_event"
  /\ k <> "$$historical_export_timestamp"
  /\ k <> "$$historical_export_source_db".
Proof. unfold historicalProperties. cbn. intuition congruence. Qed.




Lemma properties_kept convertedAt exportedAt e (k : string) :
  ~ In k historicalProperties ->
  properties (historicalExport convertedAt exportedAt e) !! k
  = properties (liveExport e) !! k.
Proof.
  intros Hk. destruct (not_historical k Hk) as (Hflag & Htime & Hsource).
  unfold historicalExport. cbn [properties].
  now rewrite !lookup_insert_ne by congruence.
Qed.

Lemma properties_added convertedAt exportedAt e :
  (forall k, In k historicalProperties -> s_properties e !! k = None) ->
  size (properties (historicalExport convertedAt exportedAt e))
  = 3 + size (properties (liveExport e)).
Proof.
  intros Hfree. unfold historicalExport, liveExport. cbn [properties].
  rewrite !map_size_insert_None; [reflexivity | | |].
  - apply Hfree. cbn. auto.
  - rewrite lookup_insert_ne by discriminate. apply Hfree. cbn. auto.
  - rewrite !lookup_insert_ne by discriminate. apply Hfree. cbn. auto.
Qed.

(** *** The two comparisons of the test *)









(** * Properties of the harness of the functional tests *)

Import FunctionalTest.

(** The bodies posted to [url], in the order of the requests. *)
Lemma serve_from (requests : list (string * Batch)) :
  forall (calledWith : gmap string (list Batch)) (url : string),
    fold_left (fun m request => record (fst request) (snd request) m) requests calledWith
    !! url
    = match map snd (List.filter (fun request => String.eqb (fst request) url) requests) with
      | [] => calledWith !! url
      | posted => Some (default [] (calledWith !! url) ++ posted)
      end.
Proof.
  induction requests as [| [to body] requests IH]; intros calledWith url; [reflexivity |].
  cbn [fold_left List.filter fst snd]. rewrite IH. unfold record.
  destruct (String.eqb_spec to url) as [-> | Hother].
  - rewrite lookup_insert_eq. cbn [map snd default].
    destruct (map snd (List.filter _ requests)) as [| next posted].
    + reflexivity.
    + unfold id. now rewrite <- app_assoc.
  - now rewrite lookup_insert_ne.
Qed.

(** X13. The server of the test keeps, for each url, the bodies posted to
    it in the order they arrived, whatever is posted to other urls in
    between; a url nothing was posted to has no entry. *)
Theorem serve_keeps_posts_by_url (requests : list (string * Batch)) (url : string) :
  serve requests !! url
  = match map snd (List.filter (fun request => String.eqb (fst request) url) requests) with
    | [] => None
    | posted => Some posted
    end.
Proof.
  unfold serve. rewrite serve_from, lookup_empty.
  now destruct (map snd (List.filter _ requests)).
Qed.

Lemma liveExport_is_not_historical (e : StoredEvent) :
  s_properties e !! "$$is_historical_export_event" = None ->
  isHistorical (liveExport e) = false.
Proof. intros Hfree. unfold isHistorical, liveExport. cbn [properties]. now rewrite Hfree. Qed.

Lemma historicalExport_is_historical convertedAt exportedAt (e : StoredEvent) :
  isHistorical (historicalExport convertedAt exportedAt e) = true.
Proof.
  unfold isHistorical, historicalExport. cbn [properties].
  rewrite !lookup_insert_ne by discriminate. now rewrite lookup_insert_eq.
Qed.

(** X14. The selections of the test tell the live payload from the
    replayed one: when the first body posted to the url of a test is the
    live export of an event that does not carry the flag, and the next one
    its historical export, the first selection returns the live batch and
    the selection by the flag returns the replayed payload, whatever was
    posted later or to other urls. *)
Theorem selections_tell_live_from_replayed
        (requests : list (string * Batch)) (url : string) (e : StoredEvent)
        (convertedAt exportedAt : Z) (later : list Batch) :
  s_properties e !! "$$is_historical_export_event" = None ->
  map snd (List.filter (fun request => String.eqb (fst request) url) requests)
  = [liveExport e] :: [historicalExport convertedAt exportedAt e] :: later ->
  firstExport (serve requests) url = Some [liveExport e]
  /\ firstHistoricalExport (serve requests) url
     = Some (historicalExport convertedAt exportedAt e).
Proof.
  intros Hfree Hposted. unfold firstExport, firstHistoricalExport.
  unfold serve. rewrite serve_from, lookup_empty, Hposted. cbn [default app]. split; [reflexivity |].
  cbn [List.filter existsb].
  rewrite (liveExport_is_not_historical _ Hfree), historicalExport_is_historical.
  reflexivity.
Qed.

(** X15. The bounds of the second test reject a gauge that is not in
    milliseconds: once the clock is past the first minute of the epoch,
    an instant the bounds accept in milliseconds is accepted neither in
    seconds nor in microseconds. *)
Theorem gauge_bounds_reject_other_units (metricBefore metricBefore' instant now1 now2 : Z) :
  (60061 <= now1)%Z ->
  (now1 <= now2)%Z ->
  gaugeAccepted metricBefore instant now1 now2 = true ->
  gaugeAccepted metricBefore' (instant / 1000) now1 now2 = false
  /\ gaugeAccepted metricBefore' (instant * 1000) now1 now2 = false.
Proof.
  unfold gaugeAccepted. intros Hclock Hnow Haccepted.
  apply andb_true_iff in Haccepted as [Haccepted Hrecent].
  apply andb_true_iff in Haccepted as [_ Hpast].
  apply Z.ltb_lt in Hrecent, Hpast.
  split; apply andb_false_iff.
  - right. apply Z.ltb_ge.
    pose proof (Z.div_mod instant 1000 ltac:(lia)) as Hdiv.
    pose proof (Z.mod_pos_bound instant 1000 ltac:(lia)) as Hmod. lia.
  - left. apply andb_false_iff. right. apply Z.ltb_ge. lia.
Qed.

(** * The further properties, on the sample collaborators *)

(** The sample steps and the sample producer leave the store as it is;
    the sample lookup marks the container as loaded. *)
Lemma sample_steps_leave_the_store (stepName : StepType) (step : StepFn bool) :
  registry_get EVENT_PIPELINE_STEPS stepName = Some step ->
  forall this args s, snd (step this args s) = s.
Proof.
  cbn [registry_get EVENT_PIPELINE_STEPS]. intros Hreg this args s.
  repeat match type of Hreg with
         | (if ?b then _ else _) = _ => destruct b
         end;
    inversion Hreg; subst; cbn; unfold Sample.step;
    destruct (faultOf _ _); reflexivity.
Qed.

Lemma sample_producer_leaves_the_store (record : string * string) (s : Store bool) :
  snd (queueMessage record s) = s.
Proof. cbn. now destruct (ext s). Qed.

(** The sample steps continue with registered steps. *)
Lemma sample_steps_continue_with_own_names (h : Hub) :
  continuesWithOwnNames (runner h).
Proof.
  intros stepName step args s next s'.
  cbn [registry_get EVENT_PIPELINE_STEPS]. intros Hreg Hstep.
  repeat match type of Hreg with
         | (if ?b then _ else _) = _ => destruct b
         end;
    inversion Hreg; subst; cbn in Hstep; unfold Sample.step in Hstep;
    destruct (faultOf _ _); inversion Hstep; reflexivity.
Qed.

(** X1, on the sample: [createEventStep] finds the database down. *)
Lemma runPipeline_throws_only_dependency_unavailable_witness :
  sentryReports (snd (runPipeline (runner withStatsd) 1 "createEventStep"
                         [ArgEvent (anEvent "unavailable in createEventStep")]
                         (world true)))
  = [mkError DependencyUnavailableError "database is unreachable"].
Proof.
  destruct (runPipeline (runner withStatsd) 1 "createEventStep"
              [ArgEvent (anEvent "unavailable in createEventStep")] (world true))
    as [[[r | e |] w'] t] eqn:Hrun;
    try (vm_compute in Hrun; discriminate).
  destruct (@runPipeline_throws_only_dependency_unavailable
              bool (string * string) collaborators
              (runner withStatsd) 1 "createEventStep"
              [ArgEvent (anEvent "unavailable in createEventStep")] (world true) e w' t
              eq_refl (sample_steps_continue_with_own_names withStatsd) Hrun)
    as (_ & Hsentry & _).
  cbn [snd]. rewrite Hsentry. vm_compute in Hrun. now inversion Hrun.
Defined.

(** X2, on the sample: [createEventStep] returns [null]. *)
Lemma result_without_error_comes_from_null_witness :
  dlqSubmissions (snd (runPipeline (runner withStatsd) 2 "prepareEventStep"
                         [ArgEvent (anEvent "fine")] (world true)))
  = [].
Proof.
  destruct (runPipeline (runner withStatsd) 2 "prepareEventStep"
              [ArgEvent (anEvent "fine")] (world true))
    as [[[r | e |] w'] t] eqn:Hrun;
    try (vm_compute in Hrun; discriminate).
  assert (error r = None) as Herror.
  { pose proof Hrun as Hvalue. vm_compute in Hvalue. now inversion Hvalue. }
  destruct (@result_without_error_comes_from_null
              bool (string * string) collaborators
              (runner withStatsd) 2 "prepareEventStep" [ArgEvent (anEvent "fine")]
              (world true) r w' t
              eq_refl (sample_steps_continue_with_own_names withStatsd) Hrun Herror)
    as (n & lastArgs & w1 & t1 & step & s & _ & _ & _ & _ & _ & _ & _ & Hdlq).
  exact Hdlq.
Defined.


(** X5, on the sample: two steps are called, the second fails; the first
    is counted, the second is not. *)
Lemma step_counter_follows_the_calls_witness :
  increments "kafka_queue.event_pipeline.step"
             (snd (runPipeline (runner withStatsd) 2 "prepareEventStep"
                     [ArgEvent (anEvent "bug in createEventStep")] (world true)))
  = [[("step", "prepareEventStep")]]
  /\ stepsInvoked (snd (runPipeline (runner withStatsd) 2 "prepareEventStep"
                          [ArgEvent (anEvent "bug in createEventStep")] (world true)))
     = [ ("prepareEventStep", [ArgEvent (anEvent "bug in createEventStep")]);
         ("createEventStep", [ArgEvent (anEvent "bug in createEventStep")]) ].
Proof.
  destruct (@step_counter_follows_the_calls bool (string * string) collaborators
              (runner withStatsd) 2 "prepareEventStep"
              [ArgEvent (anEvent "bug in createEventStep")] (world true)
              StatsDClient eq_refl eq_refl (sample_steps_continue_with_own_names withStatsd))
    as (counted & Hcount & _ & Hcalls).
  destruct (runPipeline (runner withStatsd) 2 "prepareEventStep"
              [ArgEvent (anEvent "bug in createEventStep")] (world true))
    as [[[r | e |] w'] t] eqn:Hrun;
    try (vm_compute in Hrun; discriminate).
  cbn [fst snd] in *.
  assert (error r = Some "boom" /\ lastStep r = "createEventStep"
          /\ stepsInvoked t
             = [ ("prepareEventStep", [ArgEvent (anEvent "bug in createEventStep")]);
                 ("createEventStep", [ArgEvent (anEvent "bug in createEventStep")]) ])
    as (Herror & Hlast & Hinvoked).
  { pose proof Hrun as Hvalue. vm_compute in Hvalue. now inversion Hvalue. }
  rewrite Herror, Hlast in Hcalls. cbn in Hcalls.
  destruct Hcalls as [lastArgs Hcalls]. rewrite Hinvoked in Hcalls.
  destruct counted as [| call [| call' counted]]; try discriminate.
  - inversion Hcalls; subst. rewrite Hcount, Hinvoked. split; reflexivity.
  - inversion Hcalls as [[Hfirst Hsecond Hrest]]. now destruct counted.
Defined.

(** X6, on the sample: the run ends at [createEventStep]. *)
Lemma last_step_counter_marks_success_witness :
  increments "kafka_queue.event_pipeline.step.last"
             (snd (runPipeline (runner withStatsd) 2 "prepareEventStep"
                     [ArgEvent (anEvent "fine")] (world true)))
  = [[("step", "createEventStep"); ("team_id", "2")]].
Proof.
  rewrite (@last_step_counter_marks_success bool (string * string) collaborators
             (runner withStatsd) 2 "prepareEventStep" [ArgEvent (anEvent "fine")]
             (world true) StatsDClient eq_refl).
  vm_compute. reflexivity.
Defined.

(** X7, on the sample: the store a run leaves is the store it started
    in. *)
Lemma runPipeline_keeps_what_the_collaborators_keep_witness :
  store (snd (fst (runPipeline (runner withStatsd) 2 "prepareEventStep"
                     [ArgEvent (anEvent "bug in createEventStep")] (world true))))
  = store (world true).
Proof.
  symmetry.
  apply (@runPipeline_keeps_what_the_collaborators_keep bool (string * string) collaborators
           (fun s1 s2 => s1 = s2)).
  - reflexivity.
  - intros s1 s2 s3 -> ->. reflexivity.
  - intros stepName step Hreg this args s. symmetry.
    exact (sample_steps_leave_the_store stepName step Hreg this args s).
  - intros record s. symmetry. apply sample_producer_leaves_the_store.
Defined.

(** X9, on the sample: Kafka accepts the record, or is unreachable. *)
Lemma dead_letter_counter_counts_accepted_records_witness :
  increments "events_added_to_dead_letter_queue"
             (snd (runPipeline (runner withStatsd) 1 "createEventStep"
                     [ArgEvent (anEvent "bug in createEventStep")] (world true)))
  = [[]]
  /\ increments "events_added_to_dead_letter_queue"
                (snd (runPipeline (runner withStatsd) 1 "createEventStep"
                        [ArgEvent (anEvent "bug in createEventStep")] (world false)))
     = [].
Proof.
  split.
  - apply (@dead_letter_counter_counts_accepted_records bool (string * string) collaborators
             (runner withStatsd) 0 "createEventStep"
             [ArgEvent (anEvent "bug in createEventStep")] (world true)
             "createEventStep" [ArgEvent (anEvent "bug in createEventStep")] (world true) []
             (Sample.step "createEventStep" None) (mkError GenericError "boom")
             (store (world true)) StatsDClient (Fulfilled tt) (store (world true)));
      try reflexivity; try (vm_compute; reflexivity); try discriminate; try lia.
    apply chain_done.
  - apply (@dead_letter_counter_counts_accepted_records bool (string * string) collaborators
             (runner withStatsd) 0 "createEventStep"
             [ArgEvent (anEvent "bug in createEventStep")] (world false)
             "createEventStep" [ArgEvent (anEvent "bug in createEventStep")] (world false) []
             (Sample.step "createEventStep" None) (mkError GenericError "boom")
             (store (world false)) StatsDClient
             (Rejected (mkError GenericError "kafka is unreachable")) (store (world false)));
      try reflexivity; try (vm_compute; reflexivity); try discriminate; try lia.
    apply chain_done.
Defined.

(** X10, on the sample: the buffer pipeline. *)
Lemma entry_points_count_their_start_once_witness :
  increments "kafka_queue.event_pipeline.start"
             (snd (runVariant (runner withStatsd) 4 (BufferedEvent (anEvent "fine"))
                              (world true)))
  = [[("pipeline", "buffer")]].
Proof.
  exact (proj2 (@entry_points_count_their_start_once bool (string * string) collaborators
                  (runner withStatsd) 4 (BufferedEvent (anEvent "fine")) (world true)
                  StatsDClient eq_refl)).
Defined.

(** X11, on the sample: the buffer pipeline, then the async-handlers
    pipeline. *)
Lemma person_containers_are_not_shared_witness :
  pc_ref (newContainer
            (snd (fst (runVariant (runner withStatsd) 4 (BufferedEvent (anEvent "fine"))
                                  (world true))))
            (Some 2) "user-1")
  <> pc_ref (newContainer (world true) (Some 2) "user-1").
Proof.
  apply (@person_containers_are_not_shared bool (string * string) collaborators
           (runner withStatsd) 4 (BufferedEvent (anEvent "fine")) (world true)
           (runner withStatsd) 1 (AsyncHandlers (aPostIngestionEvent "fine"))).
  - intros stepName step Hreg this args s.
    now rewrite (sample_steps_leave_the_store stepName step Hreg this args s).
  - intros record s. now rewrite sample_producer_leaves_the_store.
  - intros p s. reflexivity.
  - vm_compute. left. reflexivity.
  - vm_compute. left. reflexivity.
Defined.

(** X12, on the sample: the buffer pipeline, when [pluginsProcessEventStep]
    finds the database down. *)
Lemma entry_points_throw_only_what_is_to_be_retried_witness :
  fst (fst (runVariant (runner withStatsd) 4
                       (BufferedEvent (anEvent "unavailable in pluginsProcessEventStep"))
                       (world true)))
  = Throws (mkError DependencyUnavailableError "database is unreachable").
Proof.
  destruct (runVariant (runner withStatsd) 4
              (BufferedEvent (anEvent "unavailable in pluginsProcessEventStep")) (world true))
    as [[[r | e |] w'] t] eqn:Hrun;
    try (vm_compute in Hrun; discriminate).
  destruct (@entry_points_throw_only_what_is_to_be_retried
              bool (string * string) collaborators
              (runner withStatsd) 4
              (BufferedEvent (anEvent "unavailable in pluginsProcessEventStep")) (world true)
              e w' t (sample_steps_continue_with_own_names withStatsd) Hrun)
    as [Hdu | (event & s & _ & Hget)].
  - vm_compute in Hrun. now inversion Hrun.
  - vm_compute in Hget. discriminate.
Defined.

(** X14, on the event of the test: a post to another url in between. *)
Lemma selections_tell_live_from_replayed_witness :
  firstHistoricalExport
    (serve [ ("/a", [liveExport (ingest testCapture)]);
             ("/b", [historicalExport 1 2 (ingest testCapture)]);
             ("/a", [historicalExport 20000000 20000001 (ingest testCapture)]) ])
    "/a"
  = Some (historicalExport 20000000 20000001 (ingest testCapture)).
Proof.
  apply (selections_tell_live_from_replayed
           [ ("/a", [liveExport (ingest testCapture)]);
             ("/b", [historicalExport 1 2 (ingest testCapture)]);
             ("/a", [historicalExport 20000000 20000001 (ingest testCapture)]) ]
           "/a" (ingest testCapture) 20000000 20000001 []).
  - vm_compute. reflexivity.
  - reflexivity.
Defined.

(** X15, on the clock of 2022: an instant five seconds old. *)
Lemma gauge_bounds_reject_other_units_witness :
  gaugeAccepted 0 (1641013200000 / 1000) 1641013205000 1641013205001 = false
  /\ gaugeAccepted 0 (1641013200000 * 1000) 1641013205000 1641013205001 = false.
Proof.
  apply (gauge_bounds_reject_other_units 1641013100000 0 1641013200000
                                         1641013205000 1641013205001).
  - lia.
  - lia.
  - reflexivity.
Defined.

(** X8, on [createEventStep], which is registered and is not
    [runAsyncHandlersStep]. *)
Lemma dead_letterable_steps_are_the_other_registered_steps_witness :
  includes STEPS_TO_EMIT_TO_DLQ_ON_FAILURE "createEventStep" = true.
Proof.
  apply (@dead_letterable_steps_are_the_other_registered_steps bool (string * string)
           collaborators "createEventStep").
  split.
  - exists (Sample.step "createEventStep" None). reflexivity.
  - discriminate.
Defined.

(** X16, on the sample: [createEventStep] is called with an event and a
    person container that is not loaded, and returns [null]; the result
    shows the container by its own fields. *)
Lemma no_person_container_leaves_the_runner_witness :
  exists r isLoaded,
    fst (fst (runPipeline (runner withStatsd) 1 "createEventStep"
                          [ArgEvent (anEvent "fine");
                           ArgPerson (mkLazyPersonContainer 7 (Some 3) "user-9")]
                          (mkWorld (mkStore true {[7]} ∅) 0 [])))
    = Returns r
    /\ args r = [SerSame (ArgEvent (anEvent "fine")); SerProjection (Some 3) "user-9" isLoaded]
    /\ (isLoaded = true
        <-> 7 ∈ loadedContainers
                  (store (snd (fst (runPipeline (runner withStatsd) 1 "createEventStep"
                                      [ArgEvent (anEvent "fine");
                                       ArgPerson (mkLazyPersonContainer 7 (Some 3) "user-9")]
                                      (mkWorld (mkStore true {[7]} ∅) 0 [])))))).
Proof.
  destruct (runPipeline (runner withStatsd) 1 "createEventStep"
              [ArgEvent (anEvent "fine");
               ArgPerson (mkLazyPersonContainer 7 (Some 3) "user-9")]
              (mkWorld (mkStore true {[7]} ∅) 0 []))
    as [[[r | e |] w'] t] eqn:Hrun;
    try (vm_compute in Hrun; discriminate).
  destruct (@no_person_container_leaves_the_runner bool (string * string) collaborators
              (runner withStatsd) 1 "createEventStep"
              [ArgEvent (anEvent "fine");
               ArgPerson (mkLazyPersonContainer 7 (Some 3) "user-9")]
              (mkWorld (mkStore true {[7]} ∅) 0 []) (Returns r) w' t
              eq_refl (sample_steps_continue_with_own_names withStatsd) Hrun
              ltac:(discriminate))
    as (n & lastName & lastArgs & w1 & t1 & turn & t2
        & Hchain & Hn & _ & _ & _ & Hresult & _).
  destruct n as [| n]; [| lia].
  inversion Hchain; subst.
  destruct (Hresult r eq_refl) as [_ Hargs].
  inversion Hargs as [| event out rest outs Hevent Hrest]; subst.
  inversion Hrest as [| person out' rest' outs' Hperson Hnone]; subst.
  inversion Hnone; subst.
  destruct out as [| same]; [destruct Hevent |].
  destruct out' as [teamId distinctId isLoaded |]; [| destruct Hperson].
  cbn in Hevent, Hperson. destruct Hperson as (-> & -> & Hloaded). subst same.
  exists r, isLoaded. cbn [fst snd]. split; [reflexivity |].
  split; [congruence | exact Hloaded].
Defined.
